(** * go-tpm2: resource contexts, WrapHandle and the hierarchy commands

    A shallow embedding of [resources.go] and of the hierarchy commands
    ([CreatePrimary], [Clear], [HierarchyChangeAuth]) of go-tpm2, and the
    properties of the resource table, of invalidation and of the post-Clear
    sweep that the design document states about them.

    Go values are modelled as follows.
    - [Handle] and every other [uint32] is a [Z]; a byte is a [Z] too.
    - [Name] and every other [[]byte] is a [list Z].
    - A [ResourceContext] interface value is [nilContext], a [permanentContext]
      (a value type: [type permanentContext Handle]) or a pointer to an
      [objectContext], [nvIndexContext] or [sessionContext] that lives in a
      heap of cells; two interface values are the same instance exactly when
      they are the same pointer.
    - [t.resources] is a [gmap] from handles to interface values.
    - A Go panic is an explicit outcome. *)

From stdpp Require Import gmap list strings.

Set Warnings "-clear-no-such-hyp".

Local Open Scope Z_scope.

(** ** Declarations that live outside the embedded files

    The numeric constants, the public-area types, the device behind the
    transport and the methods [Handle.Type] and [HandleType.BaseHandle] are
    declared in files of the package that are not embedded here; they are
    parameters of the development.  The two laws record what the embedded
    code relies on: Go refuses a [switch] with two equal case constants, and
    the null handle is a permanent handle
    ([permanentContext{handle: HandleNull}] in [cmds_attestation.go]). *)

Class Declarations := {
  HandleNull : Z;
  HandleTypePCR : Z;
  HandleTypeNVIndex : Z;
  HandleTypeHMACSession : Z;
  HandleTypePolicySession : Z;
  HandleTypePermanent : Z;
  HandleTypeTransient : Z;
  HandleTypePersistent : Z;
  AttrNVPlatformCreate : Z;
  WarningReferenceH0 : Z;
  ErrorHandle : Z;
  CapabilityMaxProperties : Z;
  CommandCreatePrimary : Z;
  CommandClear : Z;
  CommandHierarchyChangeAuth : Z;
  Public : Type;
  Public_zero : Public;
  SymDef : Type;
  SensitiveCreate : Type;
  SensitiveCreate_zero : SensitiveCreate;
  PCRSelectionList : Type;
  CreationData : Type;
  TkCreation : Type;
  Response : Type;
  Device : Type;
  Handle_Type : Z -> Z;
  BaseHandle : Z -> Z;
  switch_cases_distinct :
    NoDup [HandleTypePCR; HandleTypeNVIndex; HandleTypeHMACSession;
           HandleTypePolicySession; HandleTypePermanent; HandleTypeTransient;
           HandleTypePersistent];
  HandleNull_is_permanent : Handle_Type HandleNull = HandleTypePermanent
}.

(** [binary.BigEndian.PutUint32(b, v)]: writes the four bytes of [v] over
    the first four bytes of [b], and panics (index out of range) when [b] is
    shorter than four bytes.  [None] is the panic. *)
Definition be32 (v : Z) : list Z :=
  [Z.land (Z.shiftr v 24) 255; Z.land (Z.shiftr v 16) 255;
   Z.land (Z.shiftr v 8) 255; Z.land v 255].

Definition PutUint32 (b : list Z) (v : Z) : option (list Z) :=
  if decide (length b < 4)%nat then None else Some (be32 v ++ drop 4 b).

(** [make([]byte, 4)] *)
Definition make4 : list Z := [0; 0; 0; 0].

(** ** Errors and panics *)

Inductive error :=
  | TPMWarning (Command Code : Z)
  | TPMHandleError (Command Code Index : Z)
  | ResourceUnavailableError (Handle : Z)
  | InvalidResponseError (Command : Z) (msg : string)
  | errorString (msg : string)
  | wrappedError (prefix : string) (e : error)
  | otherError (id : Z).

Inductive panic :=
  | panicMsg (msg : string)
  | panicEvictInvalid (e : error)
  | panicAlreadyExists (h : Z)
  | panicNilDereference
  | panicIndexOutOfRange.

Inductive outcome (A : Type) :=
  | Returns (a : A)
  | Panics (p : panic).
Arguments Returns {A} a.
Arguments Panics {A} p.

(** ** The resource contexts *)

Record NVPublic := mkNVPublic {
  nvIndex : Z;
  nvNameAlg : Z;
  nvAttrs : Z;
  nvSize : Z
}.

Definition NVPublic_zero : NVPublic := mkNVPublic 0 0 0 0.

Inductive ResourceContext :=
  | nilContext
  | permanentContext (h : Z)
  | pointer (l : positive).

Global Instance ResourceContext_eq_dec : EqDecision ResourceContext.
Proof. solve_decision. Defined.

Section Embedding.
Context `{D : Declarations}.

Record objectContext := mkObjectContext {
  oc_handle : Z;
  oc_public : Public;
  oc_name : list Z
}.

Record nvIndexContext := mkNVIndexContext {
  nv_handle : Z;
  nv_public : NVPublic;
  nv_name : list Z
}.

Record sessionContext := mkSessionContext {
  sc_handle : Z;
  sc_hashAlg : Z;
  sc_sessionType : Z;
  sc_policyHMACType : Z;
  sc_isBound : bool;
  sc_boundEntity : list Z;
  sc_sessionKey : list Z;
  sc_nonceCaller : list Z;
  sc_nonceTPM : list Z;
  sc_symmetric : option SymDef
}.

(** What a pointer points to; the constructor is the pointer's Go type. *)
Inductive cell :=
  | objectCell (c : objectContext)
  | nvIndexCell (c : nvIndexContext)
  | sessionCell (c : sessionContext).

(** The [TPMContext] ([resources]), the contexts it and its callers share
    ([heap]) and the TPM behind the transport ([device]). *)
Record State := mkState {
  resources : gmap Z ResourceContext;
  heap : gmap positive cell;
  device : Device
}.

Definition set_resources (st : State) (r : gmap Z ResourceContext) : State :=
  mkState r (heap st) (device st).
Definition set_heap (st : State) (hp : gmap positive cell) : State :=
  mkState (resources st) hp (device st).
Definition set_device (st : State) (d : Device) : State :=
  mkState (resources st) (heap st) d.

(** *** Handle() *)

Definition cell_Handle (c : cell) : Z :=
  match c with
  | objectCell r => oc_handle r
  | nvIndexCell r => nv_handle r
  | sessionCell r => sc_handle r
  end.

Definition Handle (hp : gmap positive cell) (rc : ResourceContext) : outcome Z :=
  match rc with
  | nilContext => Panics panicNilDereference
  | permanentContext h => Returns h
  | pointer l =>
      match hp !! l with
      | Some c => Returns (cell_Handle c)
      | None => Panics panicNilDereference
      end
  end.

(** *** Name() *)

Definition handleName (h : Z) : outcome (list Z) :=
  match PutUint32 make4 h with
  | Some name => Returns name
  | None => Panics panicIndexOutOfRange
  end.

Definition cell_Name (c : cell) : outcome (list Z) :=
  match c with
  | objectCell r => Returns (oc_name r)
  | nvIndexCell r => Returns (nv_name r)
  | sessionCell r => handleName (sc_handle r)
  end.

Definition Name (hp : gmap positive cell) (rc : ResourceContext) : outcome (list Z) :=
  match rc with
  | nilContext => Panics panicNilDereference
  | permanentContext h => handleName h
  | pointer l =>
      match hp !! l with
      | Some c => cell_Name c
      | None => Panics panicNilDereference
      end
  end.

(** *** invalidate() *)

Definition objectContext_invalidate (r : objectContext) : outcome objectContext :=
  let handle := HandleNull in
  let public := Public_zero in
  match PutUint32 (oc_name r) handle with
  | Some name => Returns (mkObjectContext handle public name)
  | None => Panics panicIndexOutOfRange
  end.

Definition nvIndexContext_invalidate (r : nvIndexContext) : outcome nvIndexContext :=
  let handle := HandleNull in
  let public := NVPublic_zero in
  match PutUint32 (nv_name r) handle with
  | Some name => Returns (mkNVIndexContext handle public name)
  | None => Panics panicIndexOutOfRange
  end.

Definition sessionContext_invalidate (r : sessionContext) : sessionContext :=
  mkSessionContext HandleNull (sc_hashAlg r) (sc_sessionType r)
    (sc_policyHMACType r) (sc_isBound r) (sc_boundEntity r) (sc_sessionKey r)
    (sc_nonceCaller r) (sc_nonceTPM r) (sc_symmetric r).

Definition cell_invalidate (c : cell) : outcome cell :=
  match c with
  | objectCell r =>
      match objectContext_invalidate r with
      | Returns r' => Returns (objectCell r')
      | Panics p => Panics p
      end
  | nvIndexCell r =>
      match nvIndexContext_invalidate r with
      | Returns r' => Returns (nvIndexCell r')
      | Panics p => Panics p
      end
  | sessionCell r => Returns (sessionCell (sessionContext_invalidate r))
  end.

(** [rc.(resourceContextPrivate).invalidate()]: the method of a
    [permanentContext] has an empty body; the pointer types update the
    pointed-to context in place. *)
Definition invalidate (hp : gmap positive cell) (rc : ResourceContext)
  : outcome (gmap positive cell) :=
  match rc with
  | nilContext => Panics panicNilDereference
  | permanentContext _ => Returns hp
  | pointer l =>
      match hp !! l with
      | Some c =>
          match cell_invalidate c with
          | Returns c' => Returns (<[l := c']> hp)
          | Panics p => Panics p
          end
      | None => Panics panicNilDereference
      end
  end.

(** ** The resource table *)

Definition isPermanent (rc : ResourceContext) : bool :=
  match rc with permanentContext _ => true | _ => false end.

Definition checkResourceContextParam (st : State) (rc : ResourceContext)
  : outcome (option error) :=
  if decide (rc = nilContext) then Returns (Some (errorString "nil value"%string))
  else if isPermanent rc then Returns None
  else
    match Handle (heap st) rc with
    | Panics p => Panics p
    | Returns h =>
        if decide (h = HandleNull)
        then Returns (Some (errorString "resource has been closed"%string))
        else
          match resources st !! h with
          | Some erc =>
              if decide (erc = rc) then Returns None
              else Returns (Some (errorString "resource belongs to another TPM context"%string))
          | None =>
              Returns (Some (errorString "resource belongs to another TPM context"%string))
          end
    end.

Definition evictResourceContext (st : State) (rc : ResourceContext) : outcome State :=
  if isPermanent rc
  then Panics (panicMsg "Attempting to evict a permanent resource context"%string)
  else
    match checkResourceContextParam st rc with
    | Panics p => Panics p
    | Returns (Some err) => Panics (panicEvictInvalid err)
    | Returns None =>
        match Handle (heap st) rc with
        | Panics p => Panics p
        | Returns h =>
            let st1 := set_resources st (delete h (resources st)) in
            match invalidate (heap st1) rc with
            | Panics p => Panics p
            | Returns hp => Returns (set_heap st1 hp)
            end
        end
    end.

Definition addResourceContext (st : State) (rc : ResourceContext) : outcome State :=
  if isPermanent rc then Returns st
  else
    match Handle (heap st) rc with
    | Panics p => Panics p
    | Returns h =>
        if decide (h = HandleNull)
        then Panics (panicMsg "Attempting to add a closed resource context"%string)
        else
          match resources st !! h with
          | Some _ => Panics (panicAlreadyExists h)
          | None => Returns (set_resources st (<[h := rc]> (resources st)))
          end
    end.

(** ** Sessions as the caller passes them *)

Record Session := mkSession {
  Context : ResourceContext;
  AuthValue : list Z;
  Attrs : Z;
  includeAuthValue : bool
}.

(** The [interface{}] the commands take as authorization. *)
Inductive AuthArg :=
  | authNil
  | authValue (b : list Z)
  | authWithSession (s : Session).

(** The [interface{}] that [validateAndAppendSessionParam] takes. *)
Inductive SessionArg :=
  | HandleWithAuth (Handle : Z) (Auth : AuthArg)
  | Sessions (l : list Session).

(** [*sessionParam] and [*cmdContext]: declared outside the embedded files;
    [session] and [sessionParams] are the fields the embedded code reads and
    writes. *)
Record sessionParam := mkSessionParam {
  associatedContext : ResourceContext;
  session : option Session
}.

Record cmdContext := mkCmdContext {
  commandCode : Z;
  sessionParams : list sessionParam;
  response : Response
}.

Inductive cmdParam :=
  | paramHandle (h : Z)
  | Separator
  | paramBytes (b : list Z).

Record CreatePrimaryResponse := mkCreatePrimaryResponse {
  objectHandle : Z;
  outPublic : option Public;
  creationData : option CreationData;
  creationHash : list Z;
  creationTicket : TkCreation;
  name : list Z
}.

(** ** The collaborators

    Functions of the package that the embedded code calls and that are not
    embedded.  [nvReadPublic], [readPublic] and [GetCapabilityHandles] run a
    command without sessions: they act on the device only.
    [validateAndAppendSessionParam] inspects the table.  The command pipeline
    ([runCommandWithoutProcessingResponse], [processResponse], [RunCommand])
    may update anything. *)

Class Collaborators := {
  nvReadPublic : Device -> Z -> Device * (error + (NVPublic * list Z));
  readPublic : Device -> Z -> Device * (error + (Public * list Z * list Z));
  GetCapabilityHandles : Device -> Z -> Z -> Device * (error + list Z);
  validateAndAppendSessionParam :
    State -> list sessionParam -> SessionArg -> error + list sessionParam;
  runCommandWithoutProcessingResponse :
    State -> Z -> list sessionParam -> list cmdParam -> State * (error + cmdContext);
  processResponse : State -> cmdContext -> State * option error;
  RunCommand_CreatePrimary :
    State -> list Session -> Z -> AuthArg -> SensitiveCreate -> option Public ->
    list Z -> PCRSelectionList -> State * (error + CreatePrimaryResponse);
  compareName : Public -> list Z -> bool
}.

Context `{C : Collaborators}.

(** [&T{...}]: a pointer to a new cell. *)
Definition new (st : State) (c : cell) : State * ResourceContext :=
  let l := fresh (dom (heap st)) in
  (set_heap st (<[l := c]> (heap st)), pointer l).

Definition makeNVIndexContext (st : State) (handle : Z)
  : State * ResourceContext * option error :=
  let '(d, r) := nvReadPublic (device st) handle in
  let st := set_device st d in
  match r with
  | inl err => (st, nilContext, Some err)
  | inr (pub, name) =>
      let '(st, rc) := new st (nvIndexCell (mkNVIndexContext handle pub name)) in
      (st, rc, None)
  end.

Definition makeObjectContext (st : State) (handle : Z)
  : State * ResourceContext * option error :=
  let '(d, r) := readPublic (device st) handle in
  let st := set_device st d in
  match r with
  | inl err => (st, nilContext, Some err)
  | inr (pub, name, _) =>
      let '(st, rc) := new st (objectCell (mkObjectContext handle pub name)) in
      (st, rc, None)
  end.

(** The [switch handle.Type()] of [WrapHandle]: the cases are tried in
    order and there is no default, which leaves [rc] and [err] nil. *)
Definition WrapHandle_switch (st : State) (handle : Z)
  : State * ResourceContext * option error :=
  let ty := Handle_Type handle in
  if decide (ty = HandleTypePCR)
  then (st, nilContext, Some (errorString "cannot wrap a PCR handle"%string))
  else if decide (ty = HandleTypeNVIndex)
  then makeNVIndexContext st handle
  else if decide (ty = HandleTypeHMACSession \/ ty = HandleTypePolicySession)
  then (st, nilContext,
        Some (errorString "cannot wrap the handle of an existing session"%string))
  else if decide (ty = HandleTypePermanent)
  then (st, permanentContext handle, None)
  else if decide (ty = HandleTypeTransient \/ ty = HandleTypePersistent)
  then makeObjectContext st handle
  else (st, nilContext, None).

(** The [switch e := err.(type)] of [WrapHandle]. *)
Definition WrapHandle_error (handle : Z) (err : error) : error :=
  match err with
  | TPMWarning _ Code =>
      if decide (Code = WarningReferenceH0)
      then ResourceUnavailableError handle else err
  | TPMHandleError _ Code _ =>
      if decide (Code = ErrorHandle)
      then ResourceUnavailableError handle else err
  | _ => err
  end.

Definition WrapHandle (st : State) (handle : Z)
  : outcome (ResourceContext * option error * State) :=
  match resources st !! handle with
  | Some rc => Returns (rc, None, st)
  | None =>
      let '(st, rc, err) := WrapHandle_switch st handle in
      match err with
      | Some err => Returns (nilContext, Some (WrapHandle_error handle err), st)
      | None =>
          match addResourceContext st rc with
          | Panics p => Panics p
          | Returns st => Returns (rc, None, st)
          end
      end
  end.

Definition forget_session_message : string :=
  ("cannot forget a session context as it is not possible to recreate the context later on, which means that it " ++
   "would not be able to be flushed using this API. Please use TPMContext.FlushContext to flush it from the TPM instead")%string.

Definition ForgetResource (st : State) (context : ResourceContext)
  : outcome (option error * State) :=
  match checkResourceContextParam st context with
  | Panics p => Panics p
  | Returns (Some err) => Returns (Some err, st)
  | Returns None =>
      match Handle (heap st) context with
      | Panics p => Panics p
      | Returns h =>
          let ty := Handle_Type h in
          if decide (ty = HandleTypePCR)
          then Panics (panicMsg "Got context for a PCR index, which shouldn't happen"%string)
          else if decide (ty = HandleTypeHMACSession \/ ty = HandleTypePolicySession)
          then Returns (Some (errorString forget_session_message), st)
          else if decide (ty = HandleTypePermanent)
          then Returns (None, st)
          else
            match evictResourceContext st context with
            | Panics p => Panics p
            | Returns st => Returns (None, st)
            end
      end
  end.

(** ** Hierarchy commands *)

Definition CreatePrimary (st : State) (primaryObject : Z)
    (inSensitive : option SensitiveCreate) (inPublic : option Public)
    (outsideInfo : list Z) (creationPCR : PCRSelectionList)
    (primaryObjectAuth : AuthArg) (sessions : list Session)
  : outcome (ResourceContext * option CreatePrimaryResponse * option error * State) :=
  let inSensitive :=
    match inSensitive with Some x => x | None => SensitiveCreate_zero end in
  let '(st, r) :=
    RunCommand_CreatePrimary st sessions primaryObject primaryObjectAuth
      inSensitive inPublic outsideInfo creationPCR in
  match r with
  | inl err => Returns (nilContext, None, Some err, st)
  | inr out =>
      if decide (Handle_Type (objectHandle out) <> HandleTypeTransient)
      then Returns (nilContext, None,
                    Some (InvalidResponseError CommandCreatePrimary
                            "handle returned from TPM is the wrong type"%string), st)
      else
        match outPublic out with
        | None =>
            Returns (nilContext, None,
                     Some (InvalidResponseError CommandCreatePrimary
                             "name and public area returned from TPM are not consistent"%string), st)
        | Some pub =>
            if negb (compareName pub (name out))
            then Returns (nilContext, None,
                          Some (InvalidResponseError CommandCreatePrimary
                                  "name and public area returned from TPM are not consistent"%string), st)
            else
              let '(st, rc) :=
                new st (objectCell (mkObjectContext (objectHandle out) pub (name out))) in
              match addResourceContext st rc with
              | Panics p => Panics p
              | Returns st => Returns (rc, Some out, None, st)
              end
        end
  end.

(** The closure [getHandles] of [Clear]: an enumeration that fails adds
    nothing to [out] and its error is dropped. *)
Definition getHandles (st : State) (handleType : Z) (out : gset Z) : State * gset Z :=
  let '(d, r) :=
    GetCapabilityHandles (device st) (BaseHandle handleType) CapabilityMaxProperties in
  match r with
  | inl _ => (set_device st d, out)
  | inr handles => (set_device st d, foldl (fun out handle => {[handle]} ∪ out) out handles)
  end.

(** [handles := make(map[Handle]struct{})] and the two calls of
    [getHandles] in [Clear]. *)
Definition Clear_enumerate (st : State) : State * gset Z :=
  let handles : gset Z := ∅ in
  let '(st, handles) := getHandles st HandleTypeTransient handles in
  getHandles st HandleTypePersistent handles.

(** The type switch in the body of [for _, rc := range t.resources] in
    [Clear]: [true] is [continue]. *)
Definition cell_continue (handles : gset Z) (c : cell) : bool :=
  match c with
  | objectCell c => bool_decide (oc_handle c ∈ handles)
  | nvIndexCell c =>
      bool_decide (Z.land (nvAttrs (nv_public c)) AttrNVPlatformCreate > 0)
  | sessionCell _ => true
  end.

(** A nil or permanent [rc] matches no case of the type switch. *)
Definition Clear_continue (st : State) (handles : gset Z) (rc : ResourceContext)
  : outcome bool :=
  match rc with
  | pointer l =>
      match heap st !! l with
      | Some c => Returns (cell_continue handles c)
      | None => Panics panicNilDereference
      end
  | _ => Returns false
  end.

(** [for _, rc := range t.resources { ... t.evictResourceContext(rc) }].
    Go leaves the order of the iteration open: [order] lists the keys of
    the table in the order the loop reaches them.  An entry that was removed
    before the loop reached it is not produced. *)
Fixpoint Clear_sweep (order : list Z) (handles : gset Z) (st : State) : outcome State :=
  match order with
  | [] => Returns st
  | k :: order =>
      match resources st !! k with
      | None => Clear_sweep order handles st
      | Some rc =>
          match Clear_continue st handles rc with
          | Panics p => Panics p
          | Returns true => Clear_sweep order handles st
          | Returns false =>
              match evictResourceContext st rc with
              | Panics p => Panics p
              | Returns st => Clear_sweep order handles st
              end
          end
      end
  end.

(** Modelled from the spec: [Session.copyWithNewAuthIfRequired] is not among
    the embedded files.  Its call sites say "if the HMAC key for this command
    includes the auth value for authHandle, the TPM will respond with a HMAC
    generated with a key that includes newAuth instead", and the design
    document asks to "recompute the expected response key using the
    post-change secret": a session that includes the auth value is copied
    with the new auth value, any other session is used as it is. *)
Definition copyWithNewAuthIfRequired (s : Session) (newAuth : list Z) : Session :=
  if includeAuthValue s
  then mkSession (Context s) newAuth (Attrs s) true
  else s.

(** Modelled from the spec: the key derivation is not among the embedded
    files.  "Per-use HMAC key = sessionKey || authValue where authValue is
    included only when" [includeAuthValue] holds. *)
Definition hmacKey (sessionKey : list Z) (s : Session) : list Z :=
  sessionKey ++ (if includeAuthValue s then AuthValue s else []).

(** [ctx.sessionParams[0].session = authSession.copyWithNewAuthIfRequired(newAuth)],
    under [if authSession != nil]; indexing an empty slice panics. *)
Definition adoptNewAuth (ctx : cmdContext) (newAuth : list Z) : outcome cmdContext :=
  match sessionParams ctx !! 0%nat with
  | None => Panics panicIndexOutOfRange
  | Some sp =>
      match session sp with
      | None => Returns ctx
      | Some authSession =>
          Returns (mkCmdContext (commandCode ctx)
                     (<[0%nat := mkSessionParam (associatedContext sp)
                                   (Some (copyWithNewAuthIfRequired authSession newAuth))]>
                        (sessionParams ctx))
                     (response ctx))
      end
  end.

Definition Clear (order : list Z) (st : State) (authHandle : Z)
    (authHandleAuth : AuthArg) (sessions : list Session)
  : outcome (option error * State) :=
  match validateAndAppendSessionParam st [] (HandleWithAuth authHandle authHandleAuth) with
  | inl err =>
      Returns (Some (wrappedError
        "error whilst processing handle with authorization for authHandle"%string err), st)
  | inr s =>
      match validateAndAppendSessionParam st s (Sessions sessions) with
      | inl err =>
          Returns (Some (wrappedError
            "error whilst processing non-auth sessions"%string err), st)
      | inr s =>
          let '(st, r) :=
            runCommandWithoutProcessingResponse st CommandClear s [paramHandle authHandle] in
          let '(st, handles) := Clear_enumerate st in
          match Clear_sweep order handles st with
          | Panics p => Panics p
          | Returns st =>
              match r with
              | inl err => Returns (Some err, st)
              | inr ctx =>
                  match adoptNewAuth ctx [] with
                  | Panics p => Panics p
                  | Returns ctx =>
                      let '(st, err) := processResponse st ctx in
                      Returns (err, st)
                  end
              end
          end
      end
  end.

Definition HierarchyChangeAuth (st : State) (authHandle : Z) (newAuth : list Z)
    (authHandleAuth : AuthArg) (sessions : list Session)
  : outcome (option error * State) :=
  match validateAndAppendSessionParam st [] (HandleWithAuth authHandle authHandleAuth) with
  | inl err =>
      Returns (Some (wrappedError
        "error whilst processing handle with authorization for authHandle"%string err), st)
  | inr s =>
      match validateAndAppendSessionParam st s (Sessions sessions) with
      | inl err =>
          Returns (Some (wrappedError
            "error whilst processing non-auth sessions"%string err), st)
      | inr s =>
          let '(st, r) :=
            runCommandWithoutProcessingResponse st CommandHierarchyChangeAuth s
              [paramHandle authHandle; Separator; paramBytes newAuth] in
          match r with
          | inl err => Returns (Some err, st)
          | inr ctx =>
              match adoptNewAuth ctx newAuth with
              | Panics p => Panics p
              | Returns ctx =>
                  let '(st, err) := processResponse st ctx in
                  Returns (err, st)
              end
          end
      end
  end.

(** What one enumeration contributes to the set of survivors. *)
Definition enumerated (r : error + list Z) : gset Z :=
  match r with
  | inl _ => ∅
  | inr handles => list_to_set handles
  end.

(** ** Well-formed tables

    What the embedded code keeps true of [t.resources]: every entry is a
    pointer to a live context whose handle is the key it is stored under. *)

Definition entry_wf (hp : gmap positive cell) (h : Z) (rc : ResourceContext) : Prop :=
  match rc with
  | pointer l =>
      match hp !! l with
      | Some c => cell_Handle c = h /\ h <> HandleNull
      | None => False
      end
  | _ => False
  end.

Definition table_wf (st : State) : Prop :=
  map_Forall (entry_wf (heap st)) (resources st).

(** A Name that [PutUint32] can write into: every Name that is a handle
    encoding or an algorithm identifier followed by a digest is one. *)
Definition cell_name_ok (c : cell) : Prop :=
  match c with
  | objectCell r => (4 <= length (oc_name r))%nat
  | nvIndexCell r => (4 <= length (nv_name r))%nat
  | sessionCell _ => True
  end.

Definition entry_name_ok (hp : gmap positive cell) (h : Z) (rc : ResourceContext) : Prop :=
  match rc with
  | pointer l =>
      match hp !! l with
      | Some c => cell_name_ok c
      | None => True
      end
  | _ => True
  end.

Definition names_ok (st : State) : Prop :=
  map_Forall (entry_name_ok (heap st)) (resources st).

Definition no_permanent (m : gmap Z ResourceContext) : Prop :=
  forall k h, m !! k <> Some (permanentContext h).

(** The order of a [range] over the table: its keys, each once. *)
Definition range_order (st : State) (order : list Z) : Prop :=
  NoDup order /\ list_to_set order = dom (resources st).

Global Instance entry_wf_dec hp h rc : Decision (entry_wf hp h rc).
Proof.
  unfold entry_wf. destruct rc as [| |l]; [right; tauto | right; tauto |].
  destruct (hp !! l); [apply _ | right; tauto].
Defined.

Global Instance cell_name_ok_dec c : Decision (cell_name_ok c).
Proof. destruct c; simpl; apply _. Defined.

Global Instance entry_name_ok_dec hp h rc : Decision (entry_name_ok hp h rc).
Proof.
  unfold entry_name_ok. destruct rc as [| |l]; [left; exact I | left; exact I |].
  destruct (hp !! l); [apply _ | left; exact I].
Defined.

Global Instance table_wf_dec st : Decision (table_wf st).
Proof. unfold table_wf. apply _. Defined.

Global Instance names_ok_dec st : Decision (names_ok st).
Proof. unfold names_ok. apply _. Defined.

Global Instance range_order_dec st order : Decision (range_order st order).
Proof. unfold range_order. apply _. Defined.

(** One operation of the embedded code on the table, or any change of
    the device. *)
Inductive step : State -> State -> Prop :=
  | step_add st rc st' :
      addResourceContext st rc = Returns st' -> step st st'
  | step_evict st rc st' :
      evictResourceContext st rc = Returns st' -> step st st'
  | step_WrapHandle st handle rc err st' :
      WrapHandle st handle = Returns (rc, err, st') -> step st st'
  | step_ForgetResource st context err st' :
      ForgetResource st context = Returns (err, st') -> step st st'
  | step_Clear_sweep st order handles st' :
      Clear_sweep order handles st = Returns st' -> step st st'
  | step_device st d :
      step st (set_device st d).

End Embedding.

(** ** The attributes of an NV-index context

    [nvIndexContext.setAttr] and [nvIndexContext.clearAttr].  [NVAttributes]
    is a [uint32]: [^a] is the complement on 32 bits.  [NVPublic.Name] is
    declared outside the embedded files and is a parameter; its error is
    dropped ([name, _ := r.public.Name()]). *)

Section NVAttributes.
Variable NVPublic_Name : NVPublic -> list Z * option error.

Definition uint32_not (a : Z) : Z := Z.lxor a 0xffffffff.

Definition nvIndexContext_setAttr (r : nvIndexContext) (a : Z) : nvIndexContext :=
  let public :=
    mkNVPublic (nvIndex (nv_public r)) (nvNameAlg (nv_public r))
      (Z.lor (nvAttrs (nv_public r)) a) (nvSize (nv_public r)) in
  let '(name, _) := NVPublic_Name public in
  mkNVIndexContext (nv_handle r) public name.

Definition nvIndexContext_clearAttr (r : nvIndexContext) (a : Z) : nvIndexContext :=
  let public :=
    mkNVPublic (nvIndex (nv_public r)) (nvNameAlg (nv_public r))
      (Z.land (nvAttrs (nv_public r)) (uint32_not a)) (nvSize (nv_public r)) in
  let '(name, _) := NVPublic_Name public in
  mkNVIndexContext (nv_handle r) public name.

End NVAttributes.

(** A [uint32]. *)
Definition is_uint32 (x : Z) : Prop := 0 <= x < 2 ^ 32.

(** ** Concrete declarations

    The values of the TPM 2.0 library specification, for running the
    embedding on concrete inputs; the type of a handle is its top byte.  The
    public areas and the device carry no data here. *)

Definition TPM20 : Declarations := {|
  HandleNull := 0x40000007;
  HandleTypePCR := 0x00;
  HandleTypeNVIndex := 0x01;
  HandleTypeHMACSession := 0x02;
  HandleTypePolicySession := 0x03;
  HandleTypePermanent := 0x40;
  HandleTypeTransient := 0x80;
  HandleTypePersistent := 0x81;
  AttrNVPlatformCreate := 0x40000000;
  WarningReferenceH0 := 0x10;
  ErrorHandle := 0x0b;
  CapabilityMaxProperties := 0xffffffff;
  CommandCreatePrimary := 0x131;
  CommandClear := 0x126;
  CommandHierarchyChangeAuth := 0x129;
  Public := unit;
  Public_zero := tt;
  SymDef := unit;
  SensitiveCreate := unit;
  SensitiveCreate_zero := tt;
  PCRSelectionList := unit;
  CreationData := unit;
  TkCreation := unit;
  Response := unit;
  Device := unit;
  Handle_Type := fun h => Z.shiftr h 24;
  BaseHandle := fun ht => Z.shiftl ht 24;
  switch_cases_distinct := ltac:(apply (bool_decide_unpack _); exact I);
  HandleNull_is_permanent := eq_refl
|}.

(** ** Concrete runs

    A device that answers from a script, and the states that the examples
    below run the embedding on. *)

Module Scenario.

#[local] Existing Instance TPM20.

(** [nv], [rp] and [cap] are the answers to [nvReadPublic], [readPublic]
    and [GetCapabilityHandles]; [fail] is the error of the round trip, if
    any; [verify] is the verdict on the response. *)
Definition scripted
    (nv : Z -> error + (NVPublic * list Z))
    (rp : Z -> error + (unit * list Z * list Z))
    (cap : Z -> error + list Z)
    (fail : option error)
    (verify : cmdContext -> option error) : Collaborators := {|
  nvReadPublic := fun d h => (d, nv h);
  readPublic := fun d h => (d, rp h);
  GetCapabilityHandles := fun d first _ => (d, cap first);
  validateAndAppendSessionParam := fun _ params arg =>
    inr (params ++
         match arg with
         | HandleWithAuth h (authWithSession s) =>
             [mkSessionParam (permanentContext h) (Some s)]
         | HandleWithAuth h _ => [mkSessionParam (permanentContext h) None]
         | Sessions l => (fun s => mkSessionParam nilContext (Some s)) <$> l
         end);
  runCommandWithoutProcessingResponse := fun st code params _ =>
    (st, match fail with
         | Some e => inl e
         | None => inr (mkCmdContext code params tt)
         end);
  processResponse := fun st ctx => (st, verify ctx);
  RunCommand_CreatePrimary := fun st _ _ _ _ _ _ _ => (st, inl (otherError 0));
  compareName := fun _ _ => true
|}.

Definition HandleOwner : Z := 0x40000001.
Definition HandleLockout : Z := 0x4000000a.

(** A SHA-256 Name: the algorithm identifier 0x000b and a 32-byte digest. *)
Definition name34 : list Z :=
  [0; 11; 1; 2; 3; 4; 5; 6; 7; 8; 9; 10; 11; 12; 13; 14; 15; 16; 17; 18; 19;
   20; 21; 22; 23; 24; 25; 26; 27; 28; 29; 30; 31; 32].

Definition transientKey : cell := objectCell (mkObjectContext 0x80000000 tt name34).
Definition persistentKey : cell := objectCell (mkObjectContext 0x81000001 tt name34).
Definition ownerIndex : cell :=
  nvIndexCell (mkNVIndexContext 0x0181ffff
                 (mkNVPublic 0x0181ffff 11 0x00040004 8) name34).
Definition platformIndex : cell :=
  nvIndexCell (mkNVIndexContext 0x0141ffff
                 (mkNVPublic 0x0141ffff 11 0x40040004 8) name34).
Definition policySession : cell :=
  sessionCell (mkSessionContext 0x03000000 11 1 0 false [] [] [] [] None).
Definition hmacSession : cell :=
  sessionCell (mkSessionContext 0x02000000 11 0 0 false [] [5; 6] [] [] None).

(** One tracked transient object. *)
Definition oneObject : State := {|
  resources := {[ 0x80000000 := pointer 1 ]};
  heap := {[ 1%positive := transientKey ]};
  device := tt
|}.

(** A transient and a persistent object, an owner and a platform NV index
    and a policy session, all tracked. *)
Definition populated : State := {|
  resources :=
    <[ 0x80000000 := pointer 1 ]> (<[ 0x81000001 := pointer 2 ]>
    (<[ 0x0181ffff := pointer 3 ]> (<[ 0x0141ffff := pointer 4 ]>
    {[ 0x03000000 := pointer 5 ]})));
  heap :=
    <[ 1%positive := transientKey ]> (<[ 2%positive := persistentKey ]>
    (<[ 3%positive := ownerIndex ]> (<[ 4%positive := platformIndex ]>
    {[ 5%positive := policySession ]})));
  device := tt
|}.

Definition populated_order : list Z :=
  [0x0141ffff; 0x80000000; 0x03000000; 0x0181ffff; 0x81000001].

Definition empty_state : State :=
  {| resources := ∅; heap := ∅; device := tt |}.

Definition transportError : error := otherError 1.

(** The transport is down: the round trip and the enumerations fail. *)
Definition transport_down : Collaborators :=
  scripted (fun _ => inl transportError) (fun _ => inl transportError)
    (fun _ => inl transportError) (Some transportError) (fun _ => None).

(** The TPM has cleared, the persistent key lives in the platform
    hierarchy and survives; the enumeration of the transient handles
    fails. *)
Definition after_clear : Collaborators :=
  scripted (fun _ => inl transportError) (fun _ => inl transportError)
    (fun first => if decide (first = 0x80000000) then inl (TPMWarning 0x17a 0x22)
                  else inr [0x81000001])
    None (fun _ => None).

(** Nothing of what is asked for exists on the TPM. *)
Definition nothing_there : Collaborators :=
  scripted (fun _ => inl (TPMHandleError 0x169 0x0b 1))
    (fun _ => inl (TPMWarning 0x173 0x10))
    (fun _ => inr []) None (fun _ => None).

(** Everything that is asked for exists on the TPM. *)
Definition all_there : Collaborators :=
  scripted (fun h => inr (mkNVPublic h 11 0x00040004 8, name34))
    (fun _ => inr (tt, name34, name34))
    (fun _ => inr []) None (fun _ => None).

(** An HMAC session for [HandleLockout] whose key includes the auth value,
    and a TPM that answers with an HMAC keyed with the secret [secret]: the
    response verifies when the key the session gives is the session key
    followed by [secret]. *)
Definition lockoutSession : Session :=
  mkSession (pointer 1) [1; 2; 3] 1 true.

Definition with_session : State := {|
  resources := {[ 0x02000000 := pointer 1 ]};
  heap := {[ 1%positive := hmacSession ]};
  device := tt
|}.

Definition verify_with (secret : list Z) (ctx : cmdContext) : option error :=
  match sessionParams ctx !! 0%nat with
  | Some (mkSessionParam _ (Some s)) =>
      if decide (hmacKey [5; 6] s = [5; 6] ++ secret) then None
      else Some (InvalidResponseError (commandCode ctx) "incorrect HMAC"%string)
  | _ => None
  end.

Definition answers_with (secret : list Z) : Collaborators :=
  scripted (fun _ => inl transportError) (fun _ => inl transportError)
    (fun _ => inr []) None (verify_with secret).

(** Further states and devices. *)

(** A stand-in for [NVPublic.Name]: the algorithm identifier and a digest
    of one byte that depends on the attributes. *)
Definition nameOf (p : NVPublic) : list Z * option error :=
  ([0; 11; Z.land (nvAttrs p) 255; 0], None).

Definition writtenIndex : nvIndexContext :=
  mkNVIndexContext 0x0181ffff (mkNVPublic 0x0181ffff 11 0x00040004 8)
    [0; 11; 4; 0].

Definition AttrNVWritten : Z := 0x20000000.

(** A context that exists and is not in the table. *)
Definition unregistered : State := {|
  resources := ∅;
  heap := {[ 1%positive := transientKey ]};
  device := tt
|}.

Definition populated_order' : list Z :=
  [0x81000001; 0x0181ffff; 0x03000000; 0x80000000; 0x0141ffff].

Definition policySessionContext : sessionContext :=
  mkSessionContext 0x03000000 11 1 0 false [] [] [] [] None.

(** The TPM creates the primary object and answers with the handle
    [handle]. *)
Definition primaryResponse (handle : Z) : CreatePrimaryResponse :=
  mkCreatePrimaryResponse handle (Some tt) None [] tt name34.

Definition creates (handle : Z) : Collaborators := {|
  nvReadPublic := fun d h => (d, inl transportError);
  readPublic := fun d h => (d, inl transportError);
  GetCapabilityHandles := fun d first _ => (d, inr []);
  validateAndAppendSessionParam := fun _ params _ => inr params;
  runCommandWithoutProcessingResponse := fun st _ _ _ => (st, inl transportError);
  processResponse := fun st _ => (st, None);
  RunCommand_CreatePrimary := fun st _ _ _ _ _ _ _ =>
    (st, inr (primaryResponse handle));
  compareName := fun _ _ => true
|}.

(** An HMAC session whose key does not include the auth value. *)
Definition plainSession : Session :=
  mkSession (pointer 1) [1; 2; 3] 1 false.

End Scenario.

(** ** Properties *)

Section Properties.
Context `{D : Declarations}.

Lemma PutUint32_Some (b : list Z) (v : Z) :
  (4 <= length b)%nat -> PutUint32 b v = Some (be32 v ++ drop 4 b).
Proof. intros Hlen. unfold PutUint32. case_decide; [lia | done]. Qed.

Lemma PutUint32_make4 (v : Z) : PutUint32 make4 v = Some (be32 v).
Proof. reflexivity. Qed.

Lemma handleName_be32 (h : Z) : handleName h = Returns (be32 h).
Proof. reflexivity. Qed.

Lemma cell_invalidate_ok (c : cell) :
  cell_name_ok c -> exists c', cell_invalidate c = Returns c'.
Proof.
  destruct c as [r|r|r]; simpl; intros Hlen; eauto.
  - unfold objectContext_invalidate. rewrite PutUint32_Some by done. eauto.
  - unfold nvIndexContext_invalidate. rewrite PutUint32_Some by done. eauto.
Qed.

Lemma cell_invalidate_Handle (c c' : cell) :
  cell_invalidate c = Returns c' -> cell_Handle c' = HandleNull.
Proof.
  destruct c as [r|r|r]; simpl.
  - unfold objectContext_invalidate.
    destruct (PutUint32 _ _); intros; by simplify_eq.
  - unfold nvIndexContext_invalidate.
    destruct (PutUint32 _ _); intros; by simplify_eq.
  - intros; by simplify_eq.
Qed.

Lemma table_wf_lookup (st : State) (h : Z) (rc : ResourceContext) :
  table_wf st -> resources st !! h = Some rc ->
  exists l c, rc = pointer l /\ heap st !! l = Some c /\
              cell_Handle c = h /\ h <> HandleNull.
Proof.
  intros Hwf Hh. specialize (Hwf _ _ Hh). unfold entry_wf in Hwf.
  destruct rc as [| |l]; try done.
  destruct (heap st !! l) as [c|] eqn:Hl; [|done].
  destruct Hwf as [Hc Hnull]. by exists l, c.
Qed.

Lemma names_ok_lookup (st : State) (h : Z) (l : positive) (c : cell) :
  names_ok st -> resources st !! h = Some (pointer l) -> heap st !! l = Some c ->
  cell_name_ok c.
Proof.
  intros Hn Hh Hl. specialize (Hn _ _ Hh). simpl in Hn. by rewrite Hl in Hn.
Qed.

Lemma table_wf_no_permanent (st : State) :
  table_wf st -> no_permanent (resources st).
Proof.
  intros Hwf k h Hk.
  by destruct (table_wf_lookup _ _ _ Hwf Hk) as (l & c & ? & _).
Qed.

Lemma range_order_elem (st : State) (order : list Z) (h : Z) (rc : ResourceContext) :
  range_order st order -> resources st !! h = Some rc -> h ∈ order.
Proof.
  intros [_ Hdom] Hh.
  apply (elem_of_list_to_set (C := gset Z)). rewrite Hdom.
  apply elem_of_dom. eauto.
Qed.

(** Evicting a tracked context of a well-formed table removes its entry
    and invalidates the context in place. *)
Lemma evictResourceContext_tracked (st : State) (h : Z) (l : positive) (c c' : cell) :
  table_wf st ->
  resources st !! h = Some (pointer l) ->
  heap st !! l = Some c ->
  cell_invalidate c = Returns c' ->
  evictResourceContext st (pointer l)
  = Returns (mkState (delete h (resources st)) (<[l := c']> (heap st)) (device st)).
Proof.
  intros Hwf Hh Hl Hinv.
  destruct (table_wf_lookup _ _ _ Hwf Hh) as (l0 & c0 & [= <-] & Hl0 & Hc & Hnull).
  rewrite Hl in Hl0. simplify_eq.
  unfold evictResourceContext, checkResourceContextParam; simpl.
  rewrite Hl. rewrite decide_False by done. rewrite Hh.
  rewrite decide_True by done. by rewrite Hinv.
Qed.

Lemma addResourceContext_no_permanent (st st' : State) (rc : ResourceContext) :
  addResourceContext st rc = Returns st' ->
  no_permanent (resources st) -> no_permanent (resources st').
Proof.
  unfold addResourceContext. intros Hadd Hnp.
  destruct rc as [|hp|l]; simpl in Hadd; simplify_eq; try done.
  destruct (heap st !! l); simpl in Hadd; [|done].
  case_decide; [done|].
  destruct (resources st !! cell_Handle c) eqn:E; [done|]. simplify_eq.
  intros k h. simpl. destruct (decide (cell_Handle c = k)) as [->|Hne].
  - rewrite lookup_insert_eq. done.
  - rewrite lookup_insert_ne by done. apply Hnp.
Qed.

Lemma evictResourceContext_no_permanent (st st' : State) (rc : ResourceContext) :
  evictResourceContext st rc = Returns st' ->
  no_permanent (resources st) -> no_permanent (resources st').
Proof.
  unfold evictResourceContext. intros Hev Hnp.
  destruct (isPermanent rc); [done|].
  destruct (checkResourceContextParam st rc) as [[e|]|]; try done.
  destruct (Handle (heap st) rc) as [h|]; [|done].
  destruct (invalidate _ rc) as [hp|]; [|done]. simplify_eq.
  intros k h'. simpl. destruct (decide (h = k)) as [->|Hne].
  - rewrite lookup_delete_eq. done.
  - rewrite lookup_delete_ne by done. apply Hnp.
Qed.

(** The case constants of the two [switch handle.Type()] are pairwise
    different. *)
Lemma handle_types_differ :
  HandleTypeNVIndex <> HandleTypePCR /\
  (HandleTypeHMACSession <> HandleTypePCR /\ HandleTypeHMACSession <> HandleTypeNVIndex) /\
  (HandleTypePolicySession <> HandleTypePCR /\ HandleTypePolicySession <> HandleTypeNVIndex) /\
  (HandleTypePermanent <> HandleTypePCR /\ HandleTypePermanent <> HandleTypeNVIndex /\
   HandleTypePermanent <> HandleTypeHMACSession /\
   HandleTypePermanent <> HandleTypePolicySession) /\
  (HandleTypeTransient <> HandleTypePCR /\ HandleTypeTransient <> HandleTypeNVIndex /\
   HandleTypeTransient <> HandleTypeHMACSession /\
   HandleTypeTransient <> HandleTypePolicySession /\
   HandleTypeTransient <> HandleTypePermanent) /\
  (HandleTypePersistent <> HandleTypePCR /\ HandleTypePersistent <> HandleTypeNVIndex /\
   HandleTypePersistent <> HandleTypeHMACSession /\
   HandleTypePersistent <> HandleTypePolicySession /\
   HandleTypePersistent <> HandleTypePermanent /\
   HandleTypePersistent <> HandleTypeTransient).
Proof.
  pose proof switch_cases_distinct as Hnd.
  rewrite !NoDup_cons, !elem_of_cons in Hnd.
  repeat split; intros Heq; rewrite Heq in Hnd; tauto.
Qed.

Lemma not_permanent_not_null (h : Z) :
  Handle_Type h <> HandleTypePermanent -> h <> HandleNull.
Proof.
  intros Hty ->. apply Hty. apply HandleNull_is_permanent.
Qed.

Context {C : Collaborators}.

Lemma switch_PCR (st : State) (h : Z) :
  Handle_Type h = HandleTypePCR ->
  WrapHandle_switch st h
  = (st, nilContext, Some (errorString "cannot wrap a PCR handle"%string)).
Proof. intros Hty. unfold WrapHandle_switch. by rewrite decide_True. Qed.

Lemma switch_NVIndex (st : State) (h : Z) :
  Handle_Type h = HandleTypeNVIndex ->
  WrapHandle_switch st h = makeNVIndexContext st h.
Proof.
  intros Hty. unfold WrapHandle_switch.
  pose proof handle_types_differ as Hd.
  rewrite decide_False by (rewrite Hty; tauto). by rewrite decide_True.
Qed.

Lemma switch_session (st : State) (h : Z) :
  Handle_Type h = HandleTypeHMACSession \/ Handle_Type h = HandleTypePolicySession ->
  WrapHandle_switch st h
  = (st, nilContext,
     Some (errorString "cannot wrap the handle of an existing session"%string)).
Proof.
  intros Hty. unfold WrapHandle_switch.
  pose proof handle_types_differ as Hd.
  rewrite decide_False by (destruct Hty as [-> | ->]; tauto).
  rewrite decide_False by (destruct Hty as [-> | ->]; tauto).
  by rewrite decide_True.
Qed.

Lemma switch_permanent (st : State) (h : Z) :
  Handle_Type h = HandleTypePermanent ->
  WrapHandle_switch st h = (st, permanentContext h, None).
Proof.
  intros Hty. unfold WrapHandle_switch.
  pose proof handle_types_differ as Hd.
  rewrite decide_False by (rewrite Hty; tauto).
  rewrite decide_False by (rewrite Hty; tauto).
  rewrite decide_False by (rewrite Hty; tauto).
  by rewrite decide_True.
Qed.

Lemma switch_object (st : State) (h : Z) :
  Handle_Type h = HandleTypeTransient \/ Handle_Type h = HandleTypePersistent ->
  WrapHandle_switch st h = makeObjectContext st h.
Proof.
  intros Hty. unfold WrapHandle_switch.
  pose proof handle_types_differ as Hd.
  rewrite decide_False by (destruct Hty as [-> | ->]; tauto).
  rewrite decide_False by (destruct Hty as [-> | ->]; tauto).
  rewrite decide_False by (destruct Hty as [-> | ->]; tauto).
  rewrite decide_False by (destruct Hty as [-> | ->]; tauto).
  by rewrite decide_True.
Qed.

Lemma switch_none (st : State) (h : Z) :
  Handle_Type h <> HandleTypePCR ->
  Handle_Type h <> HandleTypeNVIndex ->
  Handle_Type h <> HandleTypeHMACSession ->
  Handle_Type h <> HandleTypePolicySession ->
  Handle_Type h <> HandleTypePermanent ->
  Handle_Type h <> HandleTypeTransient ->
  Handle_Type h <> HandleTypePersistent ->
  WrapHandle_switch st h = (st, nilContext, None).
Proof.
  intros. unfold WrapHandle_switch.
  repeat (rewrite decide_False by tauto). done.
Qed.

(** A new context can be registered under its handle when the handle is
    neither the null handle nor in the table. *)
Lemma addResourceContext_new (st : State) (c : cell) :
  cell_Handle c <> HandleNull ->
  resources st !! cell_Handle c = None ->
  let l := fresh (dom (heap st)) in
  addResourceContext (new st c).1 (new st c).2
  = Returns (mkState (<[cell_Handle c := pointer l]> (resources st))
                     (<[l := c]> (heap st)) (device st)).
Proof.
  intros Hnull Hfree l. unfold new, addResourceContext. simpl. fold l.
  rewrite lookup_insert_eq. rewrite decide_False by done. by rewrite Hfree.
Qed.

(** *** The sweep of [Clear] *)

Lemma evict_keeps_wf (st : State) (h : Z) (l : positive) (c c' : cell) :
  table_wf st ->
  resources st !! h = Some (pointer l) ->
  heap st !! l = Some c ->
  table_wf (mkState (delete h (resources st)) (<[l := c']> (heap st)) (device st)).
Proof.
  intros Hwf Hh Hl k rc. simpl. intros Hk.
  destruct (decide (h = k)) as [->|Hne]; [by rewrite lookup_delete_eq in Hk|].
  rewrite lookup_delete_ne in Hk by done.
  destruct (table_wf_lookup _ _ _ Hwf Hk) as (l0 & c0 & -> & Hl0 & Hc0 & Hnull).
  unfold entry_wf. rewrite lookup_insert_ne; [by rewrite Hl0|]. intros <-.
  destruct (table_wf_lookup _ _ _ Hwf Hh) as (l1 & c1 & [= <-] & Hl1 & Hc1 & _).
  congruence.
Qed.

Lemma evict_keeps_names (st : State) (h : Z) (l : positive) (c c' : cell) :
  table_wf st -> names_ok st ->
  resources st !! h = Some (pointer l) ->
  heap st !! l = Some c ->
  names_ok (mkState (delete h (resources st)) (<[l := c']> (heap st)) (device st)).
Proof.
  intros Hwf Hnames Hh Hl k rc. simpl. intros Hk.
  destruct (decide (h = k)) as [->|Hne]; [by rewrite lookup_delete_eq in Hk|].
  rewrite lookup_delete_ne in Hk by done.
  destruct (table_wf_lookup _ _ _ Hwf Hk) as (l0 & c0 & -> & Hl0 & Hc0 & Hnull).
  unfold entry_name_ok. rewrite lookup_insert_ne.
  - rewrite Hl0. by eapply names_ok_lookup.
  - intros <-.
    destruct (table_wf_lookup _ _ _ Hwf Hh) as (l1 & c1 & [= <-] & Hl1 & Hc1 & _).
    congruence.
Qed.

Lemma Clear_sweep_spec (handles : gset Z) (order : list Z) :
  forall st, table_wf st -> names_ok st -> NoDup order ->
  exists st',
    Clear_sweep order handles st = Returns st' /\
    device st' = device st /\
    table_wf st' /\
    (forall h, h ∉ order -> resources st' !! h = resources st !! h) /\
    (forall l, (forall h, h ∈ order -> resources st !! h <> Some (pointer l)) ->
               heap st' !! l = heap st !! l) /\
    (forall h l c, h ∈ order ->
       resources st !! h = Some (pointer l) -> heap st !! l = Some c ->
       if cell_continue handles c
       then resources st' !! h = Some (pointer l) /\ heap st' !! l = Some c
       else resources st' !! h = None /\
            exists c', cell_invalidate c = Returns c' /\ heap st' !! l = Some c').
Proof.
  induction order as [|k order IH]; intros st Hwf Hnames Hnd.
  - exists st. simpl. repeat split; try done.
    intros h l c Hin. by apply elem_of_nil in Hin.
  - apply NoDup_cons in Hnd as [Hk Hnd]. simpl.
    destruct (resources st !! k) as [rc|] eqn:Hrk.
    + destruct (table_wf_lookup _ _ _ Hwf Hrk) as (l & c & -> & Hl & Hc & Hnull).
      unfold Clear_continue. rewrite Hl.
      destruct (cell_continue handles c) eqn:Hcont.
      * destruct (IH st Hwf Hnames Hnd)
          as (st' & Hsw & Hdev & Hwf' & Hother & Hheap & Hcls).
        exists st'. repeat (split; [done|]). split; [|split].
        -- intros h Hh. apply Hother. set_solver.
        -- intros l0 Hl0. apply Hheap. intros h Hh. apply Hl0. set_solver.
        -- intros h l0 c0 Hin Hr Hc0. apply elem_of_cons in Hin as [->|Hin].
           ++ rewrite Hrk in Hr. injection Hr as <-.
              rewrite Hl in Hc0. injection Hc0 as <-. rewrite Hcont.
              rewrite Hother by done. split; [done|].
              rewrite Hheap; [done|]. intros h Hh Hr'.
              destruct (table_wf_lookup _ _ _ Hwf Hr') as (l1 & c1 & [= <-] & Hl1 & Hc1 & _).
              rewrite Hl in Hl1. injection Hl1 as <-. congruence.
           ++ by apply Hcls.
      * destruct (cell_invalidate_ok c) as [c' Hinv]; [by eapply names_ok_lookup|].
        rewrite (evictResourceContext_tracked st k l c c') by done.
        set (st1 := mkState _ _ _).
        assert (table_wf st1) as Hwf1 by by eapply evict_keeps_wf.
        assert (names_ok st1) as Hnames1 by by eapply evict_keeps_names.
        destruct (IH st1 Hwf1 Hnames1 Hnd)
          as (st' & Hsw & Hdev & Hwf' & Hother & Hheap & Hcls).
        exists st'. repeat (split; [done|]). split; [|split].
        -- intros h Hh. rewrite Hother by set_solver. simpl.
           apply lookup_delete_ne. set_solver.
        -- intros l0 Hl0. rewrite Hheap.
           ++ simpl. apply lookup_insert_ne. intros <-.
              apply (Hl0 k); [set_solver | done].
           ++ intros h Hh. simpl. intros Hr.
              apply (Hl0 h); [set_solver|].
              by apply lookup_delete_Some in Hr as [_ Hr].
        -- intros h l0 c0 Hin Hr Hc0. apply elem_of_cons in Hin as [->|Hin].
           ++ rewrite Hrk in Hr. injection Hr as <-.
              rewrite Hl in Hc0. injection Hc0 as <-. rewrite Hcont.
              rewrite Hother by done. simpl. rewrite lookup_delete_eq.
              split; [done|]. exists c'. split; [done|].
              rewrite Hheap; [by simpl; rewrite lookup_insert_eq|].
              intros h Hh. simpl. intros Hr.
              destruct (table_wf_lookup _ _ _ Hwf1 Hr) as (l1 & c1 & [= <-] & Hl1 & Hc1 & Hn1).
              simpl in Hl1. rewrite lookup_insert_eq in Hl1.
              injection Hl1 as <-.
              apply Hn1. rewrite <- Hc1. by eapply cell_invalidate_Handle.
           ++ assert (h <> k) as Hhk by (intros ->; done).
              assert (l0 <> l) as Hll.
              { intros ->. rewrite Hl in Hc0. injection Hc0 as <-.
                destruct (table_wf_lookup _ _ _ Hwf Hr) as (l1 & c1 & [= <-] & Hl1 & Hc1 & _).
                rewrite Hl in Hl1. injection Hl1 as <-. congruence. }
              apply Hcls; [done| |].
              ** simpl. by rewrite lookup_delete_ne.
              ** simpl. by rewrite lookup_insert_ne.
    + destruct (IH st Hwf Hnames Hnd)
        as (st' & Hsw & Hdev & Hwf' & Hother & Hheap & Hcls).
      exists st'. repeat (split; [done|]). split; [|split].
      * intros h Hh. apply Hother. set_solver.
      * intros l0 Hl0. apply Hheap. intros h Hh. apply Hl0. set_solver.
      * intros h l0 c0 Hin Hr Hc0. apply elem_of_cons in Hin as [->|Hin].
        -- congruence.
        -- by apply Hcls.
Qed.

(** *** The enumeration of [Clear] *)

Lemma getHandles_fold (out : gset Z) (handles : list Z) :
  foldl (fun out handle => {[handle]} ∪ out) out handles = out ∪ list_to_set handles.
Proof.
  revert out. induction handles as [|h handles IH]; intros out; simpl.
  - set_solver.
  - rewrite IH. set_solver.
Qed.

Lemma getHandles_spec (st : State) (handleType : Z) (out : gset Z) :
  let r := GetCapabilityHandles (device st) (BaseHandle handleType)
             CapabilityMaxProperties in
  getHandles st handleType out = (set_device st r.1, out ∪ enumerated r.2).
Proof.
  simpl. unfold getHandles.
  destruct (GetCapabilityHandles _ _ _) as [d [e|handles]]; simpl.
  - f_equal. set_solver.
  - by rewrite getHandles_fold.
Qed.

Lemma Clear_enumerate_spec (st : State) :
  let r1 := GetCapabilityHandles (device st) (BaseHandle HandleTypeTransient)
              CapabilityMaxProperties in
  let r2 := GetCapabilityHandles r1.1 (BaseHandle HandleTypePersistent)
              CapabilityMaxProperties in
  Clear_enumerate st = (set_device st r2.1, enumerated r1.2 ∪ enumerated r2.2).
Proof.
  simpl. unfold Clear_enumerate. rewrite getHandles_spec.
  rewrite getHandles_spec. simpl. f_equal. set_solver.
Qed.

Lemma Clear_enumerate_frame (st : State) :
  resources (Clear_enumerate st).1 = resources st /\
  heap (Clear_enumerate st).1 = heap st.
Proof. by rewrite Clear_enumerate_spec. Qed.

Lemma Clear_sweep_after_enumerate (st : State) (order : list Z) :
  table_wf st -> names_ok st -> range_order st order ->
  let handles := (Clear_enumerate st).2 in
  exists st',
    Clear_sweep order handles (Clear_enumerate st).1 = Returns st' /\
    table_wf st' /\
    forall h l c, resources st !! h = Some (pointer l) -> heap st !! l = Some c ->
      if cell_continue handles c
      then resources st' !! h = Some (pointer l) /\ heap st' !! l = Some c
      else resources st' !! h = None /\
           exists c', cell_invalidate c = Returns c' /\ heap st' !! l = Some c'.
Proof.
  intros Hwf Hnames Horder handles.
  destruct (Clear_enumerate_frame st) as [Hres Hheap].
  set (st1 := (Clear_enumerate st).1) in *.
  assert (table_wf st1) as Hwf1 by (unfold table_wf; by rewrite Hres, Hheap).
  assert (names_ok st1) as Hnames1 by (unfold names_ok; by rewrite Hres, Hheap).
  destruct (Clear_sweep_spec handles order st1 Hwf1 Hnames1 (proj1 Horder))
    as (st' & Hsw & _ & Hwf' & _ & _ & Hcls).
  exists st'. split; [done|]. split; [done|].
  intros h l c Hh Hl.
  assert (h ∈ order) as Hin by by eapply range_order_elem.
  specialize (Hcls h l c Hin). rewrite Hres, Hheap in Hcls. by apply Hcls.
Qed.

(** The sweep sends nothing: the device it leaves is the one the second
    enumeration left. *)
Lemma Clear_sweep_after_enumerate_device (st st' : State) (order : list Z) :
  table_wf st -> names_ok st -> range_order st order ->
  Clear_sweep order (Clear_enumerate st).2 (Clear_enumerate st).1 = Returns st' ->
  let r1 := GetCapabilityHandles (device st) (BaseHandle HandleTypeTransient)
              CapabilityMaxProperties in
  let r2 := GetCapabilityHandles r1.1 (BaseHandle HandleTypePersistent)
              CapabilityMaxProperties in
  device st' = r2.1.
Proof.
  intros Hwf Hnames Horder Hsw r1 r2.
  destruct (Clear_enumerate_frame st) as [Hres Hheap].
  set (st1 := (Clear_enumerate st).1) in *.
  assert (table_wf st1) as Hwf1 by (unfold table_wf; by rewrite Hres, Hheap).
  assert (names_ok st1) as Hnames1 by (unfold names_ok; by rewrite Hres, Hheap).
  destruct (Clear_sweep_spec (Clear_enumerate st).2 order st1 Hwf1 Hnames1 (proj1 Horder))
    as (st'' & Hsw' & Hdev & _).
  rewrite Hsw in Hsw'. injection Hsw' as <-.
  rewrite Hdev. unfold st1. by rewrite Clear_enumerate_spec.
Qed.

(** A handle is in the set that [Clear] collects exactly when one of the
    two calls of [GetCapabilityHandles] succeeded and listed it. *)
Lemma Clear_enumerate_elem (st : State) (h : Z) :
  let r1 := GetCapabilityHandles (device st) (BaseHandle HandleTypeTransient)
              CapabilityMaxProperties in
  let r2 := GetCapabilityHandles r1.1 (BaseHandle HandleTypePersistent)
              CapabilityMaxProperties in
  h ∈ (Clear_enumerate st).2 <->
  (exists handles, r1.2 = inr handles /\ h ∈ handles) \/
  (exists handles, r2.2 = inr handles /\ h ∈ handles).
Proof.
  intros r1 r2. pose proof (Clear_enumerate_spec st) as Hspec. simpl in Hspec.
  fold r1 in Hspec. fold r2 in Hspec. rewrite Hspec. simpl.
  rewrite elem_of_union.
  assert (forall r : error + list Z,
            h ∈ enumerated r <-> exists handles, r = inr handles /\ h ∈ handles)
    as Henum.
  { intros [e|handles]; simpl.
    - split; [by intros ?%not_elem_of_empty | by intros (? & ? & _)].
    - rewrite elem_of_list_to_set. split; [by eauto|].
      by intros (handles' & [= <-] & Hin). }
  by rewrite !Henum.
Qed.


Lemma object_not_enumerated_evicted (st st' : State) (handles : gset Z)
    (h : Z) (l : positive) (r : objectContext) :
  table_wf st ->
  resources st !! h = Some (pointer l) ->
  heap st !! l = Some (objectCell r) ->
  h ∉ handles ->
  (if cell_continue handles (objectCell r)
   then resources st' !! h = Some (pointer l) /\ heap st' !! l = Some (objectCell r)
   else resources st' !! h = None /\
        exists c', cell_invalidate (objectCell r) = Returns c' /\
                   heap st' !! l = Some c') ->
  resources st' !! h = None /\
  exists r', objectContext_invalidate r = Returns r' /\
             heap st' !! l = Some (objectCell r') /\
             Handle (heap st') (pointer l) = Returns HandleNull.
Proof.
  intros Hwf Hh Hl Hnin Hcls.
  destruct (table_wf_lookup _ _ _ Hwf Hh) as (l0 & c0 & [= <-] & Hl0 & Hc0 & _).
  rewrite Hl in Hl0. injection Hl0 as <-. simpl in Hc0, Hcls.
  rewrite Hc0 in Hcls. rewrite bool_decide_eq_false_2 in Hcls by done.
  destruct Hcls as (Hnone & c' & Hinv & Hl').
  split; [done|].
  destruct (objectContext_invalidate r) as [r'|] eqn:Hr; [|done].
  injection Hinv as <-. exists r'. repeat split; try done.
  simpl. rewrite Hl'. simpl. unfold objectContext_invalidate in Hr.
  destruct (PutUint32 _ _); [|done]. by injection Hr as <-.
Qed.

(** C9.  When the enumeration of the transient (of the persistent) handles
    fails during the sweep of [Clear], [getHandles] drops the error and adds
    nothing: the set of survivors is what the other enumeration returned,
    and, as that one lists handles of its own type only, every tracked
    object context with a transient (a persistent) handle is evicted and
    invalidated, whatever the device still holds. *)
Theorem Clear_failed_enumeration_evicts_all (st : State) (order : list Z) :
  table_wf st -> names_ok st -> range_order st order ->
  let r1 := GetCapabilityHandles (device st) (BaseHandle HandleTypeTransient)
              CapabilityMaxProperties in
  let r2 := GetCapabilityHandles r1.1 (BaseHandle HandleTypePersistent)
              CapabilityMaxProperties in
  let evicted st' ht :=
    forall h l r, Handle_Type h = ht ->
      resources st !! h = Some (pointer l) ->
      heap st !! l = Some (objectCell r) ->
      resources st' !! h = None /\
      exists r', objectContext_invalidate r = Returns r' /\
                 heap st' !! l = Some (objectCell r') /\
                 Handle (heap st') (pointer l) = Returns HandleNull in
  exists st',
    Clear_sweep order (Clear_enumerate st).2 (Clear_enumerate st).1 = Returns st' /\
    ((exists e, r1.2 = inl e) ->
     (forall h, h ∈ enumerated r2.2 -> Handle_Type h = HandleTypePersistent) ->
     (Clear_enumerate st).2 = enumerated r2.2 /\ evicted st' HandleTypeTransient) /\
    ((exists e, r2.2 = inl e) ->
     (forall h, h ∈ enumerated r1.2 -> Handle_Type h = HandleTypeTransient) ->
     (Clear_enumerate st).2 = enumerated r1.2 /\ evicted st' HandleTypePersistent).
Proof.
  intros Hwf Hnames Horder r1 r2 evicted.
  destruct (Clear_sweep_after_enumerate st order Hwf Hnames Horder)
    as (st' & Hsw & Hwf' & Hcls).
  exists st'. split; [done|].
  pose proof (Clear_enumerate_spec st) as Hspec. simpl in Hspec.
  fold r1 in Hspec. fold r2 in Hspec.
  pose proof handle_types_differ as Hd.
  split.
  - intros [e He] Hother.
    assert ((Clear_enumerate st).2 = enumerated r2.2) as Hset.
    { rewrite Hspec, He. simpl. set_solver. }
    split; [done|]. intros h l r Hty Hh Hl.
    apply (object_not_enumerated_evicted st st' (Clear_enumerate st).2 h l r
             Hwf Hh Hl); [|by apply Hcls].
    rewrite Hset. intros Hin%Hother. rewrite Hty in Hin.
    symmetry in Hin. tauto.
  - intros [e He] Hother.
    assert ((Clear_enumerate st).2 = enumerated r1.2) as Hset.
    { rewrite Hspec, He. simpl. set_solver. }
    split; [done|]. intros h l r Hty Hh Hl.
    apply (object_not_enumerated_evicted st st' (Clear_enumerate st).2 h l r
             Hwf Hh Hl); [|by apply Hcls].
    rewrite Hset. intros Hin%Hother. rewrite Hty in Hin. tauto.
Qed.

(** C10.  A handle that is not tracked and whose type is none of the seven
    case constants of the [switch] of [WrapHandle] leaves [rc] and [err] nil;
    [addResourceContext] then calls [Handle()] on the nil interface and
    [WrapHandle] panics instead of returning an error. *)
Theorem WrapHandle_unhandled_type_panics (st : State) (h : Z) :
  resources st !! h = None ->
  Handle_Type h <> HandleTypePCR ->
  Handle_Type h <> HandleTypeNVIndex ->
  Handle_Type h <> HandleTypeHMACSession ->
  Handle_Type h <> HandleTypePolicySession ->
  Handle_Type h <> HandleTypePermanent ->
  Handle_Type h <> HandleTypeTransient ->
  Handle_Type h <> HandleTypePersistent ->
  WrapHandle_switch st h = (st, nilContext, None) /\
  addResourceContext st nilContext = Panics panicNilDereference /\
  WrapHandle st h = Panics panicNilDereference.
Proof.
  intros Hfree ? ? ? ? ? ? ?.
  assert (WrapHandle_switch st h = (st, nilContext, None)) as Hsw
    by by apply switch_none.
  split; [done|]. split; [done|].
  unfold WrapHandle. by rewrite Hfree, Hsw.
Qed.

(** *** WrapHandle *)

Lemma WrapHandle_tracked (st : State) (h : Z) (rc : ResourceContext) :
  resources st !! h = Some rc -> WrapHandle st h = Returns (rc, None, st).
Proof. intros Hh. unfold WrapHandle. by rewrite Hh. Qed.

Lemma WrapHandle_NVIndex_ok (st : State) (h : Z) d pub name :
  resources st !! h = None ->
  Handle_Type h = HandleTypeNVIndex ->
  nvReadPublic (device st) h = (d, inr (pub, name)) ->
  let l := fresh (dom (heap st)) in
  WrapHandle st h
  = Returns (pointer l, None,
             mkState (<[h := pointer l]> (resources st))
                     (<[l := nvIndexCell (mkNVIndexContext h pub name)]> (heap st)) d).
Proof.
  intros Hfree Hty Hq l. unfold WrapHandle. rewrite Hfree.
  rewrite switch_NVIndex by done. unfold makeNVIndexContext. rewrite Hq.
  cbn. fold l. unfold addResourceContext. cbn. rewrite lookup_insert_eq. cbn.
  rewrite decide_False.
  - by rewrite Hfree.
  - apply not_permanent_not_null. rewrite Hty.
    pose proof handle_types_differ as Hd. intros Heq. symmetry in Heq. tauto.
Qed.

Lemma WrapHandle_object_ok (st : State) (h : Z) d pub name qn :
  resources st !! h = None ->
  Handle_Type h = HandleTypeTransient \/ Handle_Type h = HandleTypePersistent ->
  readPublic (device st) h = (d, inr (pub, name, qn)) ->
  let l := fresh (dom (heap st)) in
  WrapHandle st h
  = Returns (pointer l, None,
             mkState (<[h := pointer l]> (resources st))
                     (<[l := objectCell (mkObjectContext h pub name)]> (heap st)) d).
Proof.
  intros Hfree Hty Hq l. unfold WrapHandle. rewrite Hfree.
  rewrite switch_object by done. unfold makeObjectContext. rewrite Hq.
  cbn. fold l. unfold addResourceContext. cbn. rewrite lookup_insert_eq. cbn.
  rewrite decide_False.
  - by rewrite Hfree.
  - apply not_permanent_not_null.
    pose proof handle_types_differ as Hd. destruct Hty as [-> | ->]; tauto.
Qed.

Lemma WrapHandle_query_failed (st : State) (h : Z) d e :
  resources st !! h = None ->
  (Handle_Type h = HandleTypeNVIndex /\ nvReadPublic (device st) h = (d, inl e)) \/
  ((Handle_Type h = HandleTypeTransient \/ Handle_Type h = HandleTypePersistent) /\
   readPublic (device st) h = (d, inl e)) ->
  WrapHandle st h
  = Returns (nilContext, Some (WrapHandle_error h e), set_device st d).
Proof.
  intros Hfree [[Hty Hq] | [Hty Hq]]; unfold WrapHandle; rewrite Hfree.
  - rewrite switch_NVIndex by done. unfold makeNVIndexContext. by rewrite Hq.
  - rewrite switch_object by done. unfold makeObjectContext. by rewrite Hq.
Qed.

(** C7.  For a handle that is not tracked, [WrapHandle] goes by the type
    of the handle: a PCR handle and the handle of an HMAC or policy session
    are rejected with an error and nothing changes; an NV index, a transient
    and a persistent handle are queried ([nvReadPublic], [readPublic]) and,
    when the query answers, wrapped in a new context that holds the handle,
    the public area and the name returned, and that is tracked under the
    handle; a permanent handle succeeds with a [permanentContext] and the
    state, the table included, is unchanged. *)
Theorem WrapHandle_by_handle_type (st : State) (h : Z) :
  resources st !! h = None ->
  (Handle_Type h = HandleTypePCR ->
   WrapHandle st h
   = Returns (nilContext, Some (errorString "cannot wrap a PCR handle"%string), st)) /\
  (Handle_Type h = HandleTypeHMACSession \/ Handle_Type h = HandleTypePolicySession ->
   WrapHandle st h
   = Returns (nilContext,
              Some (errorString "cannot wrap the handle of an existing session"%string),
              st)) /\
  (Handle_Type h = HandleTypeNVIndex ->
   forall d pub name, nvReadPublic (device st) h = (d, inr (pub, name)) ->
   let l := fresh (dom (heap st)) in
   WrapHandle st h
   = Returns (pointer l, None,
              mkState (<[h := pointer l]> (resources st))
                (<[l := nvIndexCell (mkNVIndexContext h pub name)]> (heap st)) d)) /\
  (Handle_Type h = HandleTypeTransient \/ Handle_Type h = HandleTypePersistent ->
   forall d pub name qn, readPublic (device st) h = (d, inr (pub, name, qn)) ->
   let l := fresh (dom (heap st)) in
   WrapHandle st h
   = Returns (pointer l, None,
              mkState (<[h := pointer l]> (resources st))
                (<[l := objectCell (mkObjectContext h pub name)]> (heap st)) d)) /\
  (Handle_Type h = HandleTypePermanent ->
   WrapHandle st h = Returns (permanentContext h, None, st)).
Proof.
  intros Hfree. repeat split.
  - intros Hty. unfold WrapHandle. by rewrite Hfree, switch_PCR.
  - intros Hty. unfold WrapHandle. by rewrite Hfree, switch_session.
  - intros Hty d pub name Hq. by apply WrapHandle_NVIndex_ok.
  - intros Hty d pub name qn Hq. by eapply WrapHandle_object_ok.
  - intros Hty. unfold WrapHandle. by rewrite Hfree, switch_permanent.
Qed.

(** C6.  When the query that [WrapHandle] runs for an NV index or an object
    fails with a [*TPMWarning] whose code is [WarningReferenceH0] or with a
    [*TPMHandleError] whose code is [ErrorHandle], [WrapHandle] returns
    [ResourceUnavailableError{handle}], which is neither of the two and no
    other kind of error; any other failure of the query is returned as it
    is.  No context is returned and nothing is tracked. *)
Theorem WrapHandle_resource_unavailable (st : State) (h : Z) d e :
  resources st !! h = None ->
  (Handle_Type h = HandleTypeNVIndex /\ nvReadPublic (device st) h = (d, inl e)) \/
  ((Handle_Type h = HandleTypeTransient \/ Handle_Type h = HandleTypePersistent) /\
   readPublic (device st) h = (d, inl e)) ->
  exists e',
    WrapHandle st h = Returns (nilContext, Some e', set_device st d) /\
    (forall Command, e = TPMWarning Command WarningReferenceH0 ->
       e' = ResourceUnavailableError h) /\
    (forall Command Index, e = TPMHandleError Command ErrorHandle Index ->
       e' = ResourceUnavailableError h) /\
    ((forall Command, e <> TPMWarning Command WarningReferenceH0) ->
     (forall Command Index, e <> TPMHandleError Command ErrorHandle Index) ->
     e' = e) /\
    (forall Command Code Index id msg prefix e0,
       ResourceUnavailableError h <> TPMWarning Command Code /\
       ResourceUnavailableError h <> TPMHandleError Command Code Index /\
       ResourceUnavailableError h <> InvalidResponseError Command msg /\
       ResourceUnavailableError h <> errorString msg /\
       ResourceUnavailableError h <> wrappedError prefix e0 /\
       ResourceUnavailableError h <> otherError id).
Proof.
  intros Hfree Hq. exists (WrapHandle_error h e).
  split; [by apply WrapHandle_query_failed|].
  split; [|split; [|split]].
  - intros Command ->. simpl. by rewrite decide_True.
  - intros Command Index ->. simpl. by rewrite decide_True.
  - intros Hw He. destruct e as [cmd code|cmd code idx| | | | |]; simpl; try done.
    + case_decide as Hc; [|done]. subst code. by destruct (Hw cmd).
    + case_decide as Hc; [|done]. subst code. by destruct (He cmd idx).
  - intros. by repeat split.
Qed.

Lemma WrapHandle_switch_ok (st st1 : State) (h : Z) (rc : ResourceContext) :
  WrapHandle_switch st h = (st1, rc, None) ->
  rc = nilContext \/
  (rc = permanentContext h /\ st1 = st) \/
  (exists l c, rc = pointer l /\ heap st1 !! l = Some c /\ cell_Handle c = h /\
               resources st1 = resources st).
Proof.
  unfold WrapHandle_switch. intros Hsw.
  repeat case_decide; simplify_eq; auto.
  - unfold makeNVIndexContext in Hsw.
    destruct (nvReadPublic _ _) as [d [e|[pub name]]]; simplify_eq.
    right. right. cbn in Hsw. injection Hsw as <- <-. cbn.
    eexists _, _. split; [done|]. by rewrite lookup_insert_eq.
  - unfold makeObjectContext in Hsw.
    destruct (readPublic _ _) as [d [e|[[pub name] qn]]]; simplify_eq.
    right. right. cbn in Hsw. injection Hsw as <- <-. cbn.
    eexists _, _. split; [done|]. by rewrite lookup_insert_eq.
Qed.

Lemma WrapHandle_no_permanent (st st' : State) (h : Z) rc e :
  WrapHandle st h = Returns (rc, e, st') ->
  no_permanent (resources st) -> no_permanent (resources st').
Proof.
  unfold WrapHandle. intros Hw Hnp.
  destruct (resources st !! h) as [rc0|] eqn:Hh; [by simplify_eq|].
  destruct (WrapHandle_switch st h) as [[st1 rc1] [err|]] eqn:Hsw.
  - injection Hw as <- <- <-.
    unfold WrapHandle_switch in Hsw. repeat case_decide; simplify_eq; try done.
    + unfold makeNVIndexContext in Hsw.
      destruct (nvReadPublic _ _) as [d [e|[pub name]]]; by simplify_eq.
    + unfold makeObjectContext in Hsw.
      destruct (readPublic _ _) as [d [e|[[pub name] qn]]]; by simplify_eq.
  - destruct (addResourceContext st1 rc1) as [st2|] eqn:Hadd; [|done].
    injection Hw as <- <- <-.
    eapply addResourceContext_no_permanent; [done|].
    destruct (WrapHandle_switch_ok _ _ _ _ Hsw)
      as [-> | [[-> ->] | (l & c & -> & _ & _ & ->)]]; try done.
Qed.

Lemma ForgetResource_no_permanent (st st' : State) rc e :
  ForgetResource st rc = Returns (e, st') ->
  no_permanent (resources st) -> no_permanent (resources st').
Proof.
  unfold ForgetResource. intros Hf Hnp.
  destruct (checkResourceContextParam st rc) as [[err|]|]; simplify_eq; try done.
  destruct (Handle (heap st) rc) as [h|]; [|done].
  repeat case_decide; simplify_eq; try done.
  destruct (evictResourceContext st rc) as [st2|] eqn:Hev; [|done].
  injection Hf as <- <-. by eapply evictResourceContext_no_permanent.
Qed.

Lemma Clear_sweep_no_permanent (handles : gset Z) (order : list Z) :
  forall st st', Clear_sweep order handles st = Returns st' ->
  no_permanent (resources st) -> no_permanent (resources st').
Proof.
  induction order as [|k order IH]; intros st st' Hsw Hnp; simpl in Hsw.
  - by simplify_eq.
  - destruct (resources st !! k) as [rc|]; [|by eapply IH].
    destruct (Clear_continue st handles rc) as [[|]|]; [by eapply IH| |done].
    destruct (evictResourceContext st rc) as [st1|] eqn:Hev; [|done].
    eapply IH; [done|]. by eapply evictResourceContext_no_permanent.
Qed.

(** C5.  [WrapHandle] of a tracked handle returns the tracked context, the
    same instance, and changes nothing; so whenever [WrapHandle] has
    returned a context for a handle, wrapping the handle again returns that
    very instance, and no second context is created. *)
Theorem WrapHandle_idempotent (st : State) (h : Z) :
  (forall rc, resources st !! h = Some rc ->
     WrapHandle st h = Returns (rc, None, st)) /\
  (forall rc st', WrapHandle st h = Returns (rc, None, st') ->
     WrapHandle st' h = Returns (rc, None, st') /\
     (resources st' !! h = Some rc \/ rc = permanentContext h)).
Proof.
  split; [apply WrapHandle_tracked|].
  intros rc st' Hw. pose proof Hw as Hw0. unfold WrapHandle in Hw.
  destruct (resources st !! h) as [rc0|] eqn:Hh.
  { injection Hw as <- <-. split; [by apply WrapHandle_tracked | by left]. }
  destruct (WrapHandle_switch st h) as [[st1 rc1] [err|]] eqn:Hsw; [done|].
  destruct (addResourceContext st1 rc1) as [st2|] eqn:Hadd; [|done].
  injection Hw as <- <-.
  destruct (WrapHandle_switch_ok _ _ _ _ Hsw)
    as [-> | [[-> ->] | (l & c & -> & Hl & Hc & Hres)]].
  - done.
  - simpl in Hadd. injection Hadd as <-. split; [done | by right].
  - unfold addResourceContext in Hadd. simpl in Hadd. rewrite Hl in Hadd.
    case_decide; [done|].
    destruct (resources st1 !! cell_Handle c); [done|].
    injection Hadd as <-.
    assert (resources (set_resources st1 (<[cell_Handle c := pointer l]> (resources st1)))
              !! h = Some (pointer l)) as Ht
      by (simpl; rewrite Hc; apply lookup_insert_eq).
    split; [by apply WrapHandle_tracked | by left].
Qed.

(** C8.  A [permanentContext] is never put in the table:
    [addResourceContext] returns at once for one, and [addResourceContext],
    [evictResourceContext], [WrapHandle], [ForgetResource], the sweep of
    [Clear] and the registration in [CreatePrimary] keep a table without
    permanent contexts free of them.  A [permanentContext] is never
    invalidated: its [invalidate] changes nothing and evicting one panics.
    Its [Handle()] and [Name()] are the handle and the big-endian encoding
    of the handle in every state. *)
Theorem permanentContext_untracked_and_constant :
  (forall st h, addResourceContext st (permanentContext h) = Returns st) /\
  (forall st st' rc, addResourceContext st rc = Returns st' ->
     no_permanent (resources st) -> no_permanent (resources st')) /\
  (forall st st' rc, evictResourceContext st rc = Returns st' ->
     no_permanent (resources st) -> no_permanent (resources st')) /\
  (forall st st' h rc e, WrapHandle st h = Returns (rc, e, st') ->
     no_permanent (resources st) -> no_permanent (resources st')) /\
  (forall st st' rc e, ForgetResource st rc = Returns (e, st') ->
     no_permanent (resources st) -> no_permanent (resources st')) /\
  (forall handles order st st', Clear_sweep order handles st = Returns st' ->
     no_permanent (resources st) -> no_permanent (resources st')) /\
  (forall st st' primaryObject inSensitive inPublic outsideInfo creationPCR
          auth sessions rc out e,
     CreatePrimary st primaryObject inSensitive inPublic outsideInfo creationPCR
       auth sessions = Returns (rc, out, e, st') ->
     no_permanent
       (resources (RunCommand_CreatePrimary st sessions primaryObject auth
                     (match inSensitive with
                      | Some x => x
                      | None => SensitiveCreate_zero
                      end) inPublic outsideInfo creationPCR).1) ->
     no_permanent (resources st')) /\
  (forall hp h, invalidate hp (permanentContext h) = Returns hp) /\
  (forall st h,
     evictResourceContext st (permanentContext h)
     = Panics (panicMsg "Attempting to evict a permanent resource context"%string)) /\
  (forall hp h, Handle hp (permanentContext h) = Returns h /\
                Name hp (permanentContext h) = Returns (be32 h)).
Proof.
  split; [done|].
  split; [intros; by eapply addResourceContext_no_permanent|].
  split; [intros; by eapply evictResourceContext_no_permanent|].
  split; [intros; by eapply WrapHandle_no_permanent|].
  split; [intros; by eapply ForgetResource_no_permanent|].
  split; [intros; by eapply Clear_sweep_no_permanent|].
  split; [|done].
  intros st st' primaryObject inSensitive inPublic outsideInfo creationPCR
    auth sessions rc out e Hcp Hnp.
  unfold CreatePrimary in Hcp.
  destruct (RunCommand_CreatePrimary _ _ _ _ _ _ _ _) as [st1 [err|r]];
    simpl in Hnp; [by simplify_eq|].
  case_decide; [by simplify_eq|].
  destruct (outPublic r) as [pub|]; [|by simplify_eq].
  destruct (compareName pub (name r)); simpl in Hcp; [|by simplify_eq].
  destruct (addResourceContext _ _) as [st2|] eqn:Hadd; [|done].
  injection Hcp as <- <- <- <-.
  by eapply addResourceContext_no_permanent.
Qed.

(** *** The table stays well formed *)

Lemma table_wf_empty hp d : table_wf (mkState ∅ hp d).
Proof. apply map_Forall_empty. Qed.

Lemma addResourceContext_wf (st st' : State) (rc : ResourceContext) :
  table_wf st -> addResourceContext st rc = Returns st' -> table_wf st'.
Proof.
  unfold addResourceContext. intros Hwf Hadd.
  destruct rc as [|hp|l]; simpl in Hadd; simplify_eq; try done.
  destruct (heap st !! l) as [c|] eqn:Hl; simpl in Hadd; [|done].
  case_decide as Hnull; [done|].
  destruct (resources st !! cell_Handle c) eqn:Hfree; [done|].
  injection Hadd as <-. apply map_Forall_insert_2; [|done].
  simpl. by rewrite Hl.
Qed.

Lemma evictResourceContext_wf (st st' : State) (rc : ResourceContext) :
  table_wf st -> evictResourceContext st rc = Returns st' -> table_wf st'.
Proof.
  unfold evictResourceContext, checkResourceContextParam. intros Hwf Hev.
  destruct rc as [|hp|l]; simpl in Hev; try done.
  destruct (heap st !! l) as [c|] eqn:Hl; simpl in Hev; [|done].
  case_decide as Hnull; [done|].
  destruct (resources st !! cell_Handle c) as [erc|] eqn:Hh; [|done].
  case_decide as Herc; [|done]. subst erc.
  destruct (cell_invalidate c) as [c'|]; [|done].
  injection Hev as <-.
  by apply (evict_keeps_wf st (cell_Handle c) l c c').
Qed.

Lemma new_wf (st : State) (c : cell) :
  table_wf st ->
  table_wf (new st c).1 /\ resources (new st c).1 = resources st.
Proof.
  intros Hwf. split; [|done]. intros h rc Hh. simpl in Hh.
  destruct (table_wf_lookup _ _ _ Hwf Hh) as (l & c0 & -> & Hl & Hc & Hnull).
  simpl. rewrite lookup_insert_ne; [by rewrite Hl|].
  intros <-. apply (is_fresh (dom (heap st))). apply elem_of_dom. eauto.
Qed.

Lemma WrapHandle_switch_wf (st : State) (h : Z) :
  table_wf st -> table_wf (WrapHandle_switch st h).1.1.
Proof.
  intros Hwf. unfold WrapHandle_switch. repeat case_decide; try done.
  - unfold makeNVIndexContext.
    destruct (nvReadPublic _ _) as [d [e|[pub name]]]; [done|].
    apply (new_wf (set_device st d)). done.
  - unfold makeObjectContext.
    destruct (readPublic _ _) as [d [e|[[pub name] qn]]]; [done|].
    apply (new_wf (set_device st d)). done.
Qed.

Lemma WrapHandle_wf (st st' : State) (h : Z) rc e :
  table_wf st -> WrapHandle st h = Returns (rc, e, st') -> table_wf st'.
Proof.
  unfold WrapHandle. intros Hwf Hw.
  destruct (resources st !! h); [by simplify_eq|].
  pose proof (WrapHandle_switch_wf st h Hwf) as Hwf1.
  destruct (WrapHandle_switch st h) as [[st1 rc1] [err|]]; simpl in Hwf1.
  - by simplify_eq.
  - destruct (addResourceContext st1 rc1) as [st2|] eqn:Hadd; [|done].
    injection Hw as <- <- <-. by eapply addResourceContext_wf.
Qed.

Lemma ForgetResource_wf (st st' : State) rc e :
  table_wf st -> ForgetResource st rc = Returns (e, st') -> table_wf st'.
Proof.
  unfold ForgetResource. intros Hwf Hf.
  destruct (checkResourceContextParam st rc) as [[err|]|]; simplify_eq; try done.
  destruct (Handle (heap st) rc) as [h|]; [|done].
  repeat case_decide; simplify_eq; try done.
  destruct (evictResourceContext st rc) as [st2|] eqn:Hev; [|done].
  injection Hf as <- <-. by eapply evictResourceContext_wf.
Qed.

Lemma Clear_sweep_wf (handles : gset Z) (order : list Z) :
  forall st st', table_wf st -> Clear_sweep order handles st = Returns st' ->
  table_wf st'.
Proof.
  induction order as [|k order IH]; intros st st' Hwf Hsw; simpl in Hsw.
  - by simplify_eq.
  - destruct (resources st !! k) as [rc|]; [|by eapply IH].
    destruct (Clear_continue st handles rc) as [[|]|]; [by eapply IH| |done].
    destruct (evictResourceContext st rc) as [st1|] eqn:Hev; [|done].
    eapply IH; [|done]. by eapply evictResourceContext_wf.
Qed.

(** Every operation of the embedded code keeps the table well formed,
    and so free of permanent contexts. *)
Lemma step_wf (st st' : State) : step st st' -> table_wf st -> table_wf st'.
Proof.
  intros Hstep Hwf. destruct Hstep.
  - by eapply addResourceContext_wf.
  - by eapply evictResourceContext_wf.
  - by eapply WrapHandle_wf.
  - by eapply ForgetResource_wf.
  - by eapply Clear_sweep_wf.
  - done.
Qed.

Lemma reachable_wf (st st' : State) :
  rtc step st st' -> table_wf st -> table_wf st'.
Proof. induction 1; eauto using step_wf. Qed.

Lemma reachable_from_empty_wf hp d (st : State) :
  rtc step (mkState ∅ hp d) st -> table_wf st /\ no_permanent (resources st).
Proof.
  intros Hreach.
  assert (table_wf st) by (eapply reachable_wf; [done | apply table_wf_empty]).
  split; [done | by apply table_wf_no_permanent].
Qed.


End Properties.

(** ** The hierarchy commands *)

Section HierarchyProperties.
Context `{D : Declarations} {C : Collaborators}.

(** What an invalidated object or NV-index context answers: the null
    handle, and a Name whose first four bytes are the encoding of the null
    handle and whose other bytes are those of the old Name. *)
Lemma cell_invalidate_Name (c c' : cell) (old : list Z) :
  cell_Name c = Returns old ->
  (forall r, c <> sessionCell r) ->
  cell_invalidate c = Returns c' ->
  cell_Handle c' = HandleNull /\
  cell_Name c' = Returns (be32 HandleNull ++ drop 4 old) /\
  length (be32 HandleNull ++ drop 4 old) = length old.
Proof.
  intros Hname Hkind Hinv.
  split; [by eapply cell_invalidate_Handle|].
  destruct c as [r|r|r]; simpl in *; [| |by destruct (Hkind r)].
  - injection Hname as <-. unfold objectContext_invalidate, PutUint32 in Hinv.
    case_decide as Hlen; [done|]. injection Hinv as <-. simpl.
    split; [done|]. rewrite length_drop. lia.
  - injection Hname as <-. unfold nvIndexContext_invalidate, PutUint32 in Hinv.
    case_decide as Hlen; [done|]. injection Hinv as <-. simpl.
    split; [done|]. rewrite length_drop. lia.
Qed.

(** The Name of an invalidated object or NV-index context is the
    encoding of the null handle exactly when the old Name had four bytes. *)
Lemma invalidated_Name_is_encoding_iff (c c' : cell) (old : list Z) :
  cell_Name c = Returns old ->
  (forall r, c <> sessionCell r) ->
  cell_invalidate c = Returns c' ->
  cell_Name c' = Returns (be32 HandleNull) <-> length old = 4%nat.
Proof.
  intros Hname Hkind Hinv.
  destruct (cell_invalidate_Name c c' old Hname Hkind Hinv) as (_ & Hn & Hlen).
  rewrite Hn. split.
  - intros [= Heq]. rewrite Heq in Hlen. done.
  - intros Hold. rewrite drop_ge by lia. by rewrite app_nil_r.
Qed.

(** A context whose handle is the null handle is refused as a parameter
    of a command. *)
Lemma closed_context_refused (st : State) (l : positive) (c : cell) :
  heap st !! l = Some c -> cell_Handle c = HandleNull ->
  checkResourceContextParam st (pointer l)
  = Returns (Some (errorString "resource has been closed"%string)).
Proof.
  intros Hl Hc. unfold checkResourceContextParam. simpl. rewrite Hl, Hc.
  by rewrite decide_True.
Qed.

(** [HierarchyChangeAuth] returns as soon as the round trip fails. *)
Lemma HierarchyChangeAuth_round_trip_failed
    (st st1 : State) authHandle newAuth auth sessions s1 s2 err :
  validateAndAppendSessionParam st [] (HandleWithAuth authHandle auth) = inr s1 ->
  validateAndAppendSessionParam st s1 (Sessions sessions) = inr s2 ->
  runCommandWithoutProcessingResponse st CommandHierarchyChangeAuth s2
    [paramHandle authHandle; Separator; paramBytes newAuth] = (st1, inl err) ->
  HierarchyChangeAuth st authHandle newAuth auth sessions = Returns (Some err, st1).
Proof.
  intros Hv1 Hv2 Hrun. unfold HierarchyChangeAuth. by rewrite Hv1, Hv2, Hrun.
Qed.

(** [Clear] sweeps before it looks at the error of the round trip. *)
Lemma Clear_round_trip_failed
    (order : list Z) (st st1 st2 : State) authHandle auth sessions s1 s2 err :
  validateAndAppendSessionParam st [] (HandleWithAuth authHandle auth) = inr s1 ->
  validateAndAppendSessionParam st s1 (Sessions sessions) = inr s2 ->
  runCommandWithoutProcessingResponse st CommandClear s2 [paramHandle authHandle]
  = (st1, inl err) ->
  Clear_sweep order (Clear_enumerate st1).2 (Clear_enumerate st1).1 = Returns st2 ->
  Clear order st authHandle auth sessions = Returns (Some err, st2).
Proof.
  intros Hv1 Hv2 Hrun Hsw. unfold Clear. rewrite Hv1, Hv2, Hrun.
  destruct (Clear_enumerate st1) as [st' handles]. simpl in Hsw. by rewrite Hsw.
Qed.

(** [Clear] is the round trip, the enumeration, the sweep, and only then
    the test of the error of the round trip. *)
Lemma Clear_unfold
    (order : list Z) (st st1 : State) authHandle auth sessions s1 s2 r :
  validateAndAppendSessionParam st [] (HandleWithAuth authHandle auth) = inr s1 ->
  validateAndAppendSessionParam st s1 (Sessions sessions) = inr s2 ->
  runCommandWithoutProcessingResponse st CommandClear s2 [paramHandle authHandle]
  = (st1, r) ->
  Clear order st authHandle auth sessions
  = match Clear_sweep order (Clear_enumerate st1).2 (Clear_enumerate st1).1 with
    | Panics p => Panics p
    | Returns st2 =>
        match r with
        | inl err => Returns (Some err, st2)
        | inr ctx =>
            match adoptNewAuth ctx [] with
            | Panics p => Panics p
            | Returns ctx =>
                Returns ((processResponse st2 ctx).2, (processResponse st2 ctx).1)
            end
        end
    end.
Proof.
  intros Hv1 Hv2 Hrun. unfold Clear. rewrite Hv1, Hv2, Hrun.
  destruct (Clear_enumerate st1) as [st' handles]. simpl.
  destruct (Clear_sweep order handles st') as [st2|]; [|done].
  destruct r as [err|ctx]; [done|].
  destruct (adoptNewAuth ctx []) as [ctx'|]; [|done].
  by destruct (processResponse st2 ctx').
Qed.

Lemma adoptNewAuth_included (ctx : cmdContext) (newAuth : list Z) sp a :
  sessionParams ctx !! 0%nat = Some sp ->
  session sp = Some a ->
  includeAuthValue a = true ->
  adoptNewAuth ctx newAuth
  = Returns (mkCmdContext (commandCode ctx)
               (<[0%nat := mkSessionParam (associatedContext sp)
                             (Some (mkSession (Context a) newAuth (Attrs a) true))]>
                  (sessionParams ctx))
               (response ctx)).
Proof.
  intros Hsp Ha Hinc. unfold adoptNewAuth, copyWithNewAuthIfRequired.
  by rewrite Hsp, Ha, Hinc.
Qed.

(** C1.  [HierarchyChangeAuth] and [Clear], when the round trip succeeded
    and the HMAC key of the authorization session includes the auth value
    of [authHandle]: the response is processed with a copy of the session
    that keeps its context and attributes and carries the secret that holds
    after the change, [newAuth] for [HierarchyChangeAuth] and the empty
    secret for [Clear]; the HMAC key of that copy is the session key
    followed by [newAuth], and the bare session key, whatever auth value
    the request was built with. *)
Theorem response_verified_with_post_change_secret :
  (forall st st1 authHandle newAuth auth sessions s1 s2 ctx sp a,
     validateAndAppendSessionParam st [] (HandleWithAuth authHandle auth) = inr s1 ->
     validateAndAppendSessionParam st s1 (Sessions sessions) = inr s2 ->
     runCommandWithoutProcessingResponse st CommandHierarchyChangeAuth s2
       [paramHandle authHandle; Separator; paramBytes newAuth] = (st1, inr ctx) ->
     sessionParams ctx !! 0%nat = Some sp ->
     session sp = Some a ->
     includeAuthValue a = true ->
     let a' := mkSession (Context a) newAuth (Attrs a) true in
     let ctx' :=
       mkCmdContext (commandCode ctx)
         (<[0%nat := mkSessionParam (associatedContext sp) (Some a')]>
            (sessionParams ctx))
         (response ctx) in
     HierarchyChangeAuth st authHandle newAuth auth sessions
     = Returns ((processResponse st1 ctx').2, (processResponse st1 ctx').1) /\
     forall sessionKey, hmacKey sessionKey a' = sessionKey ++ newAuth) /\
  (forall order st st1 st2 authHandle auth sessions s1 s2 ctx sp a,
     validateAndAppendSessionParam st [] (HandleWithAuth authHandle auth) = inr s1 ->
     validateAndAppendSessionParam st s1 (Sessions sessions) = inr s2 ->
     runCommandWithoutProcessingResponse st CommandClear s2 [paramHandle authHandle]
     = (st1, inr ctx) ->
     Clear_sweep order (Clear_enumerate st1).2 (Clear_enumerate st1).1 = Returns st2 ->
     sessionParams ctx !! 0%nat = Some sp ->
     session sp = Some a ->
     includeAuthValue a = true ->
     let a' := mkSession (Context a) [] (Attrs a) true in
     let ctx' :=
       mkCmdContext (commandCode ctx)
         (<[0%nat := mkSessionParam (associatedContext sp) (Some a')]>
            (sessionParams ctx))
         (response ctx) in
     Clear order st authHandle auth sessions
     = Returns ((processResponse st2 ctx').2, (processResponse st2 ctx').1) /\
     forall sessionKey, hmacKey sessionKey a' = sessionKey).
Proof.
  split.
  - intros st st1 authHandle newAuth auth sessions s1 s2 ctx sp a
      Hv1 Hv2 Hrun Hsp Ha Hinc a' ctx'.
    split; [|done].
    unfold HierarchyChangeAuth. rewrite Hv1, Hv2, Hrun.
    rewrite (adoptNewAuth_included ctx newAuth sp a) by done.
    fold a'. fold ctx'. by destruct (processResponse st1 ctx').
  - intros order st st1 st2 authHandle auth sessions s1 s2 ctx sp a
      Hv1 Hv2 Hrun Hsw Hsp Ha Hinc a' ctx'.
    split; [|intros sessionKey; unfold hmacKey; simpl; by rewrite app_nil_r].
    unfold Clear. rewrite Hv1, Hv2, Hrun.
    destruct (Clear_enumerate st1) as [st' handles]. simpl in Hsw. rewrite Hsw.
    rewrite (adoptNewAuth_included ctx [] sp a) by done.
    fold a'. fold ctx'. by destruct (processResponse st2 ctx').
Qed.

End HierarchyProperties.

(** ** Further properties of the embedded code *)

Section Encoding.
Context `{D : Declarations}.

Lemma land_255 (x : Z) : Z.land x 255 = x mod 256.
Proof. change 255 with (Z.ones 8). by rewrite Z.land_ones. Qed.

Lemma be32_div_mod (v : Z) :
  be32 v = [(v / 16777216) mod 256; (v / 65536) mod 256; (v / 256) mod 256; v mod 256].
Proof.
  unfold be32. rewrite !land_255, !Z.shiftr_div_pow2 by lia. done.
Qed.

Lemma be32_injective (v w : Z) :
  is_uint32 v -> is_uint32 w -> be32 v = be32 w -> v = w.
Proof.
  unfold is_uint32. change (2 ^ 32) with 4294967296.
  rewrite !be32_div_mod. intros Hv Hw [= H3 H2 H1 H0].
  Z.to_euclidean_division_equations. lia.
Qed.


End Encoding.

Section NVAttributeProperties.
Variable NVPublic_Name : NVPublic -> list Z * option error.

Lemma uint32_high_bits (x i : Z) : is_uint32 x -> 32 <= i -> Z.testbit x i = false.
Proof.
  intros [Hlo Hhi] Hi. destruct (decide (x = 0)) as [->|Hne].
  - apply Z.bits_0.
  - apply Z.bits_above_log2; [lia|].
    assert (Z.log2 x < 32) by (apply Z.log2_lt_pow2; lia). lia.
Qed.

Lemma uint32_not_spec (a i : Z) :
  0 <= i -> Z.testbit (uint32_not a) i
            = xorb (Z.testbit a i) (bool_decide (i < 32)).
Proof.
  intros Hi. unfold uint32_not. rewrite Z.lxor_spec. f_equal.
  change 0xffffffff with (Z.ones 32). case_bool_decide.
  - apply Z.ones_spec_low. lia.
  - apply Z.ones_spec_high. lia.
Qed.

Lemma is_uint32_bits (x : Z) :
  0 <= x -> (forall i, 32 <= i -> Z.testbit x i = false) -> is_uint32 x.
Proof.
  intros Hx Hbits. split; [done|].
  destruct (decide (x = 0)) as [->|Hne]; [done|].
  apply Z.log2_lt_pow2; [lia|].
  destruct (decide (Z.log2 x < 32)) as [|Hge]; [done|].
  assert (Z.testbit x (Z.log2 x) = true) as Htop by (apply Z.bit_log2; lia).
  rewrite Hbits in Htop by lia. done.
Qed.

(** X2.  [setAttr] sets every bit of the mask, [clearAttr] clears every bit of
    the mask, neither touches another bit, the handle, the index, the name
    algorithm or the size, and both keep the attributes a [uint32] and
    store the Name computed from the updated public area. *)
Theorem setAttr_clearAttr_bits (r : nvIndexContext) (a : Z) :
  is_uint32 (nvAttrs (nv_public r)) -> is_uint32 a ->
  let s := nvIndexContext_setAttr NVPublic_Name r a in
  let c := nvIndexContext_clearAttr NVPublic_Name r a in
  (is_uint32 (nvAttrs (nv_public s)) /\
   Z.land (nvAttrs (nv_public s)) a = a /\
   (forall i, 0 <= i -> Z.testbit a i = false ->
      Z.testbit (nvAttrs (nv_public s)) i = Z.testbit (nvAttrs (nv_public r)) i) /\
   nv_name s = (NVPublic_Name (nv_public s)).1) /\
  (is_uint32 (nvAttrs (nv_public c)) /\
   Z.land (nvAttrs (nv_public c)) a = 0 /\
   (forall i, 0 <= i -> Z.testbit a i = false ->
      Z.testbit (nvAttrs (nv_public c)) i = Z.testbit (nvAttrs (nv_public r)) i) /\
   nv_name c = (NVPublic_Name (nv_public c)).1) /\
  nv_handle s = nv_handle r /\ nv_handle c = nv_handle r /\
  nvIndex (nv_public s) = nvIndex (nv_public r) /\
  nvIndex (nv_public c) = nvIndex (nv_public r) /\
  nvNameAlg (nv_public s) = nvNameAlg (nv_public r) /\
  nvNameAlg (nv_public c) = nvNameAlg (nv_public r) /\
  nvSize (nv_public s) = nvSize (nv_public r) /\
  nvSize (nv_public c) = nvSize (nv_public r).
Proof.
  intros Hattrs Ha s c. subst s c.
  unfold nvIndexContext_setAttr, nvIndexContext_clearAttr.
  destruct (NVPublic_Name _) as [n1 e1] eqn:E1.
  destruct (NVPublic_Name (mkNVPublic _ _ (Z.land _ _) _)) as [n2 e2] eqn:E2.
  simpl. rewrite E1, E2. simpl.
  repeat split; try done.
  - apply Z.lor_nonneg. unfold is_uint32 in *. lia.
  - apply is_uint32_bits; [apply Z.lor_nonneg; unfold is_uint32 in *; lia|].
    intros i Hi. rewrite Z.lor_spec, !uint32_high_bits by done. done.
  - apply Z.bits_inj'. intros i Hi.
    rewrite Z.land_spec, Z.lor_spec.
    by destruct (Z.testbit (nvAttrs (nv_public r)) i), (Z.testbit a i).
  - intros i Hi Hbit. rewrite Z.lor_spec, Hbit. apply orb_false_r.
  - apply Z.land_nonneg. left. unfold is_uint32 in *. lia.
  - apply is_uint32_bits; [apply Z.land_nonneg; left; unfold is_uint32 in *; lia|].
    intros i Hi. rewrite Z.land_spec, uint32_high_bits by done. done.
  - apply Z.bits_inj'. intros i Hi.
    rewrite !Z.land_spec, uint32_not_spec, Z.bits_0 by done.
    case_bool_decide.
    + by destruct (Z.testbit (nvAttrs (nv_public r)) i), (Z.testbit a i).
    + rewrite (uint32_high_bits (nvAttrs (nv_public r))) by (done || lia). done.
  - intros i Hi Hbit. rewrite Z.land_spec, uint32_not_spec, Hbit by done.
    case_bool_decide; simpl; [apply andb_true_r|].
    rewrite uint32_high_bits by (done || lia). done.
Qed.

Lemma setAttr_unfold (r : nvIndexContext) (a : Z) :
  nvIndexContext_setAttr NVPublic_Name r a
  = let public :=
      mkNVPublic (nvIndex (nv_public r)) (nvNameAlg (nv_public r))
        (Z.lor (nvAttrs (nv_public r)) a) (nvSize (nv_public r)) in
    mkNVIndexContext (nv_handle r) public (NVPublic_Name public).1.
Proof.
  unfold nvIndexContext_setAttr. simpl. by destruct (NVPublic_Name _).
Qed.

Lemma clearAttr_unfold (r : nvIndexContext) (a : Z) :
  nvIndexContext_clearAttr NVPublic_Name r a
  = let public :=
      mkNVPublic (nvIndex (nv_public r)) (nvNameAlg (nv_public r))
        (Z.land (nvAttrs (nv_public r)) (uint32_not a)) (nvSize (nv_public r)) in
    mkNVIndexContext (nv_handle r) public (NVPublic_Name public).1.
Proof.
  unfold nvIndexContext_clearAttr. simpl. by destruct (NVPublic_Name _).
Qed.

(** X3.  Setting and then clearing a mask that was clear, and clearing and then
    setting a mask that was set, give back the public area and the Name. *)
Theorem setAttr_clearAttr_round_trip (r : nvIndexContext) (a : Z) :
  is_uint32 (nvAttrs (nv_public r)) -> is_uint32 a ->
  nv_name r = (NVPublic_Name (nv_public r)).1 ->
  (Z.land (nvAttrs (nv_public r)) a = 0 ->
   nvIndexContext_clearAttr NVPublic_Name
     (nvIndexContext_setAttr NVPublic_Name r a) a = r) /\
  (Z.land (nvAttrs (nv_public r)) a = a ->
   nvIndexContext_setAttr NVPublic_Name
     (nvIndexContext_clearAttr NVPublic_Name r a) a = r).
Proof.
  intros Hattrs Ha Hname.
  destruct r as [h [idx alg attrs size] name]. simpl in *.
  split; intros Hmask.
  - rewrite clearAttr_unfold, setAttr_unfold. simpl.
    assert (Z.land (Z.lor attrs a) (uint32_not a) = attrs) as ->; [|by rewrite Hname].
    apply Z.bits_inj'. intros i Hi.
    rewrite Z.land_spec, Z.lor_spec, uint32_not_spec by done.
    assert (Z.testbit (Z.land attrs a) i = false) as Hbit
      by (rewrite Hmask; apply Z.bits_0).
    rewrite Z.land_spec in Hbit.
    case_bool_decide.
    + by destruct (Z.testbit attrs i), (Z.testbit a i).
    + rewrite (uint32_high_bits attrs), (uint32_high_bits a) by (done || lia). done.
  - rewrite setAttr_unfold, clearAttr_unfold. simpl.
    assert (Z.lor (Z.land attrs (uint32_not a)) a = attrs) as ->; [|by rewrite Hname].
    apply Z.bits_inj'. intros i Hi.
    rewrite Z.lor_spec, Z.land_spec, uint32_not_spec by done.
    assert (Z.testbit (Z.land attrs a) i = Z.testbit a i) as Hbit
      by by rewrite Hmask.
    rewrite Z.land_spec in Hbit.
    case_bool_decide.
    + by destruct (Z.testbit attrs i), (Z.testbit a i).
    + rewrite (uint32_high_bits attrs), (uint32_high_bits a) by (done || lia). done.
Qed.

End NVAttributeProperties.

Section TableProperties.
Context `{D : Declarations} {C : Collaborators}.

Lemma check_pointer_spec (st : State) (l : positive) (c : cell) :
  heap st !! l = Some c ->
  (checkResourceContextParam st (pointer l) = Returns None <->
   cell_Handle c <> HandleNull /\
   resources st !! cell_Handle c = Some (pointer l)) /\
  (cell_Handle c = HandleNull ->
   checkResourceContextParam st (pointer l)
   = Returns (Some (errorString "resource has been closed"%string))) /\
  (cell_Handle c <> HandleNull ->
   resources st !! cell_Handle c <> Some (pointer l) ->
   checkResourceContextParam st (pointer l)
   = Returns (Some (errorString "resource belongs to another TPM context"%string))).
Proof.
  intros Hl. unfold checkResourceContextParam. simpl. rewrite Hl.
  destruct (decide (cell_Handle c = HandleNull)) as [Hnull|Hnull].
  - split; [|split]; try done. split; [done | tauto].
  - destruct (resources st !! cell_Handle c) as [erc|] eqn:Hh.
    + destruct (decide (erc = pointer l)) as [->|Hne].
      * split; [|split]; try done.
      * split; [|split]; try done. split; [done|]. intros [_ [= ?]]. done.
    + split; [|split]; try done. split; [done|]. intros [_ [= ?]].
Qed.

(** X4.  [checkResourceContextParam] on a pointer: the context is accepted
    exactly when it is the very instance that the table holds under the
    handle of the context, and that handle is not the null handle; an
    invalidated context is refused as closed, and a context that the table
    does not hold (or holds another instance for) as foreign. *)
Theorem checkResourceContextParam_pointer (st : State) (l : positive) (c : cell) :
  heap st !! l = Some c ->
  (checkResourceContextParam st (pointer l) = Returns None <->
   cell_Handle c <> HandleNull /\
   resources st !! cell_Handle c = Some (pointer l)) /\
  (cell_Handle c = HandleNull ->
   checkResourceContextParam st (pointer l)
   = Returns (Some (errorString "resource has been closed"%string))) /\
  (cell_Handle c <> HandleNull ->
   resources st !! cell_Handle c <> Some (pointer l) ->
   checkResourceContextParam st (pointer l)
   = Returns (Some (errorString "resource belongs to another TPM context"%string))).
Proof. apply check_pointer_spec. Qed.

Lemma add_spec (st st' : State) (rc : ResourceContext) :
  addResourceContext st rc = Returns st' ->
  (forall k v, resources st !! k = Some v -> resources st' !! k = Some v) /\
  heap st' = heap st /\ device st' = device st /\
  (isPermanent rc = true /\ st' = st \/
   exists h, Handle (heap st) rc = Returns h /\ h <> HandleNull /\
             resources st !! h = None /\ resources st' !! h = Some rc).
Proof.
  unfold addResourceContext. intros Hadd.
  destruct rc as [|hp|l]; simpl in Hadd; try done.
  - injection Hadd as <-. repeat split; try done. by left.
  - destruct (heap st !! l) as [c|] eqn:Hl; simpl in Hadd; [|done].
    case_decide as Hnull; [done|].
    destruct (resources st !! cell_Handle c) eqn:Hfree; [done|].
    injection Hadd as <-. simpl. split; [|split; [done|split; [done|]]].
    + intros k v Hk. rewrite lookup_insert_ne; [done|]. congruence.
    + right. exists (cell_Handle c). rewrite Hl. repeat split; try done.
      apply lookup_insert_eq.
Qed.

(** X5.  [addResourceContext] only adds: when it returns, every entry that was
    in the table is still there with the same context, no context has been
    touched, and a context that is not permanent is now in the table under
    its handle, which was free before. *)
Theorem addResourceContext_only_adds (st st' : State) (rc : ResourceContext) :
  addResourceContext st rc = Returns st' ->
  (forall k v, resources st !! k = Some v -> resources st' !! k = Some v) /\
  heap st' = heap st /\ device st' = device st /\
  (isPermanent rc = true /\ st' = st \/
   exists h, Handle (heap st) rc = Returns h /\ h <> HandleNull /\
             resources st !! h = None /\ resources st' !! h = Some rc).
Proof. apply add_spec. Qed.


(** X7.  [ForgetResource] that returns an error has changed nothing. *)
Theorem ForgetResource_error_changes_nothing
    (st st' : State) (rc : ResourceContext) (e : error) :
  ForgetResource st rc = Returns (Some e, st') -> st' = st.
Proof.
  unfold ForgetResource. intros Hf.
  destruct (checkResourceContextParam st rc) as [[err|]|]; simplify_eq; try done.
  destruct (Handle (heap st) rc) as [h|]; [|done].
  repeat case_decide; simplify_eq; try done.
  destruct (evictResourceContext st rc) as [st2|]; by simplify_eq.
Qed.

Lemma forget_spec (st : State) (h : Z) (l : positive) (c : cell) :
  table_wf st ->
  resources st !! h = Some (pointer l) ->
  heap st !! l = Some c ->
  cell_name_ok c ->
  Handle_Type h <> HandleTypePCR ->
  Handle_Type h <> HandleTypeHMACSession ->
  Handle_Type h <> HandleTypePolicySession ->
  Handle_Type h <> HandleTypePermanent ->
  exists c',
    cell_invalidate c = Returns c' /\
    ForgetResource st (pointer l)
    = Returns (None, mkState (delete h (resources st)) (<[l := c']> (heap st))
                       (device st)) /\
    cell_Handle c' = HandleNull.
Proof.
  intros Hwf Hh Hl Hname Hpcr Hhmac Hpol Hperm.
  destruct (table_wf_lookup _ _ _ Hwf Hh) as (l0 & c0 & [= <-] & Hl0 & Hc0 & Hnull).
  rewrite Hl in Hl0. injection Hl0 as <-.
  destruct (cell_invalidate_ok c Hname) as [c' Hinv]. exists c'.
  split; [done|]. split; [|by eapply cell_invalidate_Handle].
  unfold ForgetResource.
  destruct (check_pointer_spec st l c Hl) as [[_ Hacc] _].
  rewrite Hacc by (rewrite Hc0; done). simpl. rewrite Hl, Hc0.
  repeat (rewrite decide_False by tauto).
  by rewrite (evictResourceContext_tracked st h l c c').
Qed.

(** X8.  [ForgetResource] of a tracked context that is neither a session nor a
    PCR nor permanent by its handle: no error, the entry of the handle is
    removed, every other entry stays, and the context is invalidated in
    place. *)
Theorem ForgetResource_forgets (st : State) (h : Z) (l : positive) (c : cell) :
  table_wf st ->
  resources st !! h = Some (pointer l) ->
  heap st !! l = Some c ->
  cell_name_ok c ->
  Handle_Type h <> HandleTypePCR ->
  Handle_Type h <> HandleTypeHMACSession ->
  Handle_Type h <> HandleTypePolicySession ->
  Handle_Type h <> HandleTypePermanent ->
  exists c',
    cell_invalidate c = Returns c' /\
    ForgetResource st (pointer l)
    = Returns (None, mkState (delete h (resources st)) (<[l := c']> (heap st))
                       (device st)) /\
    cell_Handle c' = HandleNull.
Proof. apply forget_spec. Qed.

(** X9.  A tracked session context cannot be forgotten: [ForgetResource]
    returns an error, the context stays in the table and is still accepted
    as a parameter. *)
Theorem ForgetResource_refuses_session (st : State) (h : Z) (l : positive) (c : cell) :
  table_wf st ->
  resources st !! h = Some (pointer l) ->
  heap st !! l = Some c ->
  Handle_Type h = HandleTypeHMACSession \/ Handle_Type h = HandleTypePolicySession ->
  ForgetResource st (pointer l)
  = Returns (Some (errorString forget_session_message), st) /\
  checkResourceContextParam st (pointer l) = Returns None.
Proof.
  intros Hwf Hh Hl Hty.
  destruct (table_wf_lookup _ _ _ Hwf Hh) as (l0 & c0 & [= <-] & Hl0 & Hc0 & Hnull).
  rewrite Hl in Hl0. injection Hl0 as <-.
  destruct (check_pointer_spec st l c Hl) as [[_ Hacc] _].
  assert (checkResourceContextParam st (pointer l) = Returns None) as Hok
    by (apply Hacc; rewrite Hc0; done).
  split; [|done]. unfold ForgetResource. rewrite Hok. simpl. rewrite Hl, Hc0.
  pose proof handle_types_differ as Hd.
  rewrite decide_False by (destruct Hty as [-> | ->]; tauto).
  by rewrite decide_True.
Qed.

(** X10.  Forgetting twice: after [ForgetResource] has forgotten a context, the
    context is closed: a second [ForgetResource] returns an error and
    changes nothing, and a second eviction panics. *)
Theorem ForgetResource_twice (st st' : State) (l : positive) (h : Z) :
  Handle (heap st) (pointer l) = Returns h ->
  Handle_Type h <> HandleTypePermanent ->
  ForgetResource st (pointer l) = Returns (None, st') ->
  Handle (heap st') (pointer l) = Returns HandleNull /\
  ForgetResource st' (pointer l)
  = Returns (Some (errorString "resource has been closed"%string), st') /\
  evictResourceContext st' (pointer l)
  = Panics (panicEvictInvalid (errorString "resource has been closed"%string)).
Proof.
  intros Hhandle Hperm Hf.
  assert (exists c, heap st !! l = Some c /\ cell_Handle c = h) as (c & Hl & Hc).
  { simpl in Hhandle. destruct (heap st !! l) as [c|]; [|done].
    injection Hhandle as <-. eauto. }
  unfold ForgetResource in Hf.
  destruct (checkResourceContextParam st (pointer l)) as [[err|]|] eqn:Hck;
    simplify_eq; try done.
  rewrite Hhandle in Hf.
  repeat case_decide; simplify_eq; try done.
  destruct (evictResourceContext st (pointer l)) as [st2|] eqn:Hev; [|done].
  injection Hf as <-.
  unfold evictResourceContext in Hev. rewrite Hck in Hev. simpl in Hev.
  rewrite Hl in Hev.
  destruct (cell_invalidate c) as [c'|] eqn:Hinv; [|done].
  injection Hev as <-.
  assert (heap (set_heap (set_resources st (delete (cell_Handle c) (resources st)))
                  (<[l:=c']> (heap st))) !! l = Some c') as Hl'
    by (simpl; apply lookup_insert_eq).
  assert (cell_Handle c' = HandleNull) as Hnull
    by by eapply cell_invalidate_Handle.
  pose proof (closed_context_refused _ l c' Hl' Hnull) as Hclosed.
  split; [by simpl; rewrite lookup_insert_eq, Hnull|].
  split.
  - unfold ForgetResource. by rewrite Hclosed.
  - unfold evictResourceContext. by rewrite Hclosed.
Qed.

End TableProperties.

Section WrapHandleProperties.
Context `{D : Declarations} {C : Collaborators}.

Lemma WrapHandle_switch_grows (st : State) (h : Z) :
  resources (WrapHandle_switch st h).1.1 = resources st /\
  (forall l c, heap st !! l = Some c ->
     heap (WrapHandle_switch st h).1.1 !! l = Some c) /\
  ((WrapHandle_switch st h).2 <> None ->
   heap (WrapHandle_switch st h).1.1 = heap st /\
   (WrapHandle_switch st h).1.2 = nilContext).
Proof.
  assert (forall st0 c0 l c, heap st0 !! l = Some c ->
            heap (new st0 c0).1 !! l = Some c) as Hnew.
  { intros st0 c0 l c Hl. simpl. rewrite lookup_insert_ne; [done|].
    intros <-. apply (is_fresh (dom (heap st0))). apply elem_of_dom. eauto. }
  unfold WrapHandle_switch. repeat case_decide; try done.
  - unfold makeNVIndexContext.
    destruct (nvReadPublic _ _) as [d [e|[pub name]]]; [done|].
    split; [done|]. split; [|done]. intros l c Hl. by apply (Hnew (set_device st d)).
  - unfold makeObjectContext.
    destruct (readPublic _ _) as [d [e|[[pub name] qn]]]; [done|].
    split; [done|]. split; [|done]. intros l c Hl. by apply (Hnew (set_device st d)).
Qed.

(** X11.  [WrapHandle] that returns an error returns no context, has put nothing
    in the table and has allocated no context. *)
Theorem WrapHandle_error_changes_nothing
    (st st' : State) (h : Z) (rc : ResourceContext) (e : error) :
  WrapHandle st h = Returns (rc, Some e, st') ->
  rc = nilContext /\ resources st' = resources st /\ heap st' = heap st.
Proof.
  unfold WrapHandle. intros Hw.
  destruct (resources st !! h); [done|].
  pose proof (WrapHandle_switch_grows st h) as (Hres & _ & Herr).
  destruct (WrapHandle_switch st h) as [[st1 rc1] [err|]]; simpl in *.
  - injection Hw as <- _ <-. destruct Herr as [Hheap _]; done.
  - destruct (addResourceContext st1 rc1); done.
Qed.

(** X12.  [WrapHandle] never removes or replaces an entry of the table, and never
    touches a context that exists. *)
Theorem WrapHandle_keeps_what_exists
    (st st' : State) (h : Z) (rc : ResourceContext) (e : option error) :
  WrapHandle st h = Returns (rc, e, st') ->
  (forall k v, resources st !! k = Some v -> resources st' !! k = Some v) /\
  (forall l c, heap st !! l = Some c -> heap st' !! l = Some c).
Proof.
  unfold WrapHandle. intros Hw.
  destruct (resources st !! h); [by simplify_eq|].
  pose proof (WrapHandle_switch_grows st h) as (Hres & Hheap & _).
  destruct (WrapHandle_switch st h) as [[st1 rc1] [err|]]; simpl in *.
  - injection Hw as _ _ <-. split; [by rewrite Hres | done].
  - destruct (addResourceContext st1 rc1) as [st2|] eqn:Hadd; [|done].
    injection Hw as _ _ <-.
    destruct (add_spec _ _ _ Hadd) as (Hkeep & Hhp & _).
    split.
    + intros k v Hk. apply Hkeep. by rewrite Hres.
    + intros l c Hl. rewrite Hhp. by apply Hheap.
Qed.

Lemma WrapHandle_result (st st' : State) (h : Z) (rc : ResourceContext) :
  WrapHandle st h = Returns (rc, None, st') ->
  resources st' !! h = Some rc \/ rc = permanentContext h.
Proof.
  intros Hw. unfold WrapHandle in Hw.
  destruct (resources st !! h) as [rc0|] eqn:Hh.
  { injection Hw as <- <-. by left. }
  destruct (WrapHandle_switch st h) as [[st1 rc1] [err|]] eqn:Hsw; [done|].
  destruct (addResourceContext st1 rc1) as [st2|] eqn:Hadd; [|done].
  injection Hw as <- <-.
  destruct (WrapHandle_switch_ok _ _ _ _ Hsw)
    as [-> | [[-> ->] | (l & c & -> & Hl & Hc & Hres)]]; [done | by right |].
  left. destruct (add_spec _ _ _ Hadd) as (_ & _ & _ & [[? _] | (h' & Hh' & _ & _ & Hin)]);
    [done|].
  simpl in Hh'. rewrite Hl in Hh'. injection Hh' as <-. by rewrite <- Hc.
Qed.

(** X13.  The context that [WrapHandle] returns without an error has the handle
    that was asked for and is accepted as a parameter of a command; the
    table stays well formed. *)
Theorem WrapHandle_returns_usable_context
    (st st' : State) (h : Z) (rc : ResourceContext) :
  table_wf st ->
  WrapHandle st h = Returns (rc, None, st') ->
  Handle (heap st') rc = Returns h /\
  checkResourceContextParam st' rc = Returns None /\
  table_wf st'.
Proof.
  intros Hwf Hw.
  assert (table_wf st') as Hwf' by by eapply WrapHandle_wf.
  split; [|split; [|done]].
  - destruct (WrapHandle_result st st' h rc Hw) as [Hh | ->]; [|done].
    destruct (table_wf_lookup _ _ _ Hwf' Hh) as (l & c & -> & Hl & Hc & _).
    simpl. by rewrite Hl, Hc.
  - destruct (WrapHandle_result st st' h rc Hw) as [Hh | ->]; [|done].
    destruct (table_wf_lookup _ _ _ Hwf' Hh) as (l & c & -> & Hl & Hc & Hnull).
    apply (check_pointer_spec st' l c Hl). by rewrite Hc.
Qed.

End WrapHandleProperties.

Section ComposedProperties.
Context `{D : Declarations} {C : Collaborators}.

(** X14.  After [ForgetResource], [WrapHandle] of the same handle, when the TPM
    still has the resource, returns a new context, another instance than
    the forgotten one, which stays closed. *)
Theorem ForgetResource_then_WrapHandle_new_instance
    (st : State) (h : Z) (l : positive) (c : cell) :
  table_wf st ->
  resources st !! h = Some (pointer l) ->
  heap st !! l = Some c ->
  cell_name_ok c ->
  (Handle_Type h = HandleTypeNVIndex /\
   exists d pub name, nvReadPublic (device st) h = (d, inr (pub, name))) \/
  ((Handle_Type h = HandleTypeTransient \/ Handle_Type h = HandleTypePersistent) /\
   exists d pub name qn, readPublic (device st) h = (d, inr (pub, name, qn))) ->
  exists st1 l' st2,
    ForgetResource st (pointer l) = Returns (None, st1) /\
    WrapHandle st1 h = Returns (pointer l', None, st2) /\
    l' <> l /\
    resources st2 !! h = Some (pointer l') /\
    Handle (heap st2) (pointer l') = Returns h /\
    Handle (heap st2) (pointer l) = Returns HandleNull.
Proof.
  intros Hwf Hh Hl Hname Hq.
  pose proof handle_types_differ as Hd.
  assert (Handle_Type h <> HandleTypePCR /\ Handle_Type h <> HandleTypeHMACSession /\
          Handle_Type h <> HandleTypePolicySession /\
          Handle_Type h <> HandleTypePermanent) as (H1 & H2 & H3 & H4).
  { destruct Hq as [[-> _] | [[-> | ->] _]]; repeat split; intros Heq;
      first [tauto | symmetry in Heq; tauto]. }
  destruct (forget_spec st h l c Hwf Hh Hl Hname H1 H2 H3 H4)
    as (c' & Hinv & Hforget & Hnull).
  set (st1 := mkState (delete h (resources st)) (<[l := c']> (heap st)) (device st))
    in *.
  assert (resources st1 !! h = None) as Hfree by apply lookup_delete_eq.
  set (l' := fresh (dom (heap st1))).
  assert (l' <> l) as Hne.
  { intros Heq. apply (is_fresh (dom (heap st1))). fold l'. rewrite Heq.
    apply elem_of_dom. simpl. rewrite lookup_insert_eq. eauto. }
  destruct Hq as [[Hty (d & pub & name & Hread)] | [Hty (d & pub & name & qn & Hread)]].
  - exists st1, l'. eexists. split; [done|].
    split; [by apply (WrapHandle_NVIndex_ok st1 h d pub name)|].
    simpl. rewrite !lookup_insert_eq. rewrite lookup_insert_ne by done.
    rewrite lookup_insert_eq. by rewrite Hnull.
  - exists st1, l'. eexists. split; [done|].
    split; [by apply (WrapHandle_object_ok st1 h d pub name qn)|].
    simpl. rewrite !lookup_insert_eq. rewrite lookup_insert_ne by done.
    rewrite lookup_insert_eq. by rewrite Hnull.
Qed.

(** X15.  In every state that the embedded operations reach from an empty table,
    each entry of the table is a pointer to a live context whose handle is
    the key of the entry and is not the null handle, and no context is in
    the table under two handles. *)
Theorem reachable_table_invariant hp d (st : State) :
  rtc step (mkState ∅ hp d) st ->
  (forall h rc, resources st !! h = Some rc ->
     exists l c, rc = pointer l /\ heap st !! l = Some c /\
                 cell_Handle c = h /\ h <> HandleNull) /\
  (forall h1 h2 rc, resources st !! h1 = Some rc -> resources st !! h2 = Some rc ->
     h1 = h2).
Proof.
  intros Hreach. destruct (reachable_from_empty_wf hp d st Hreach) as [Hwf _].
  split.
  - intros h rc Hh. by apply table_wf_lookup.
  - intros h1 h2 rc H1 H2.
    destruct (table_wf_lookup _ _ _ Hwf H1) as (l1 & c1 & -> & Hl1 & Hc1 & _).
    destruct (table_wf_lookup _ _ _ Hwf H2) as (l2 & c2 & [= <-] & Hl2 & Hc2 & _).
    congruence.
Qed.

(** X16.  Evicting a tracked session context: it leaves the table, its handle
    becomes the null handle and its Name the four-byte encoding of the null
    handle, and its session key, nonces and other fields stay as they
    were. *)
Theorem evict_session_keeps_key
    (st : State) (h : Z) (l : positive) (r : sessionContext) :
  table_wf st ->
  resources st !! h = Some (pointer l) ->
  heap st !! l = Some (sessionCell r) ->
  exists st' r',
    evictResourceContext st (pointer l) = Returns st' /\
    resources st' !! h = None /\
    heap st' !! l = Some (sessionCell r') /\
    sc_handle r' = HandleNull /\
    Name (heap st') (pointer l) = Returns (be32 HandleNull) /\
    sc_sessionKey r' = sc_sessionKey r /\
    sc_nonceCaller r' = sc_nonceCaller r /\
    sc_nonceTPM r' = sc_nonceTPM r /\
    sc_isBound r' = sc_isBound r /\
    sc_boundEntity r' = sc_boundEntity r.
Proof.
  intros Hwf Hh Hl.
  eexists _, (sessionContext_invalidate r).
  split; [by apply (evictResourceContext_tracked st h l (sessionCell r))|].
  simpl. rewrite lookup_delete_eq, lookup_insert_eq. done.
Qed.

End ComposedProperties.

Section SweepProperties.
Context `{D : Declarations} {C : Collaborators}.

Lemma evict_frame (st st' : State) (rc : ResourceContext) :
  evictResourceContext st rc = Returns st' ->
  device st' = device st /\
  (forall k v, resources st' !! k = Some v -> resources st !! k = Some v) /\
  (forall l, rc <> pointer l -> heap st' !! l = heap st !! l).
Proof.
  unfold evictResourceContext. intros Hev.
  destruct (isPermanent rc); [done|].
  destruct (checkResourceContextParam st rc) as [[e|]|]; try done.
  destruct (Handle (heap st) rc) as [h|]; [|done].
  destruct (invalidate _ rc) as [hp|] eqn:Hinv; [|done].
  injection Hev as <-. simpl. split; [done|]. split.
  - intros k v Hk. by apply lookup_delete_Some in Hk as [_ Hk].
  - intros l Hne. unfold invalidate in Hinv. simpl in Hinv.
    destruct rc as [| |l0]; simplify_eq; try done.
    destruct (heap st !! l0); [|done].
    destruct (cell_invalidate c); [|done]. injection Hinv as <-.
    apply lookup_insert_ne. congruence.
Qed.

(** X17.  The sweep of [Clear] only evicts: it adds no entry to the table, it
    leaves the device alone, and a context that is not in the table (one
    that a caller holds after it was forgotten, or one tracked elsewhere)
    is not touched. *)
Theorem Clear_sweep_frame (handles : gset Z) (order : list Z) (st st' : State) :
  Clear_sweep order handles st = Returns st' ->
  device st' = device st /\
  (forall k v, resources st' !! k = Some v -> resources st !! k = Some v) /\
  (forall l, (forall h, resources st !! h <> Some (pointer l)) ->
             heap st' !! l = heap st !! l).
Proof.
  revert st. induction order as [|k order IH]; intros st Hsw; simpl in Hsw.
  - by injection Hsw as <-.
  - destruct (resources st !! k) as [rc|] eqn:Hk; [|by apply IH].
    destruct (Clear_continue st handles rc) as [[|]|]; [by apply IH| |done].
    destruct (evictResourceContext st rc) as [st1|] eqn:Hev; [|done].
    destruct (evict_frame _ _ _ Hev) as (Hdev & Hsub & Hheap).
    destruct (IH st1 Hsw) as (Hdev' & Hsub' & Hheap').
    split; [congruence|]. split; [by auto|].
    intros l Hl. rewrite Hheap'.
    + apply Hheap. intros ->. by apply (Hl k).
    + intros h Hh. apply (Hl h). by apply Hsub.
Qed.

Lemma range_order_not_elem (st : State) (order : list Z) (h : Z) :
  range_order st order -> resources st !! h = None -> h ∉ order.
Proof.
  intros [_ Hdom] Hh Hin.
  apply (elem_of_list_to_set (C := gset Z)) in Hin. rewrite Hdom in Hin.
  apply elem_of_dom in Hin as [v Hv]. congruence.
Qed.

(** What the sweep leaves, entry by entry and context by context. *)
Lemma Clear_sweep_pointwise (handles : gset Z) (order : list Z) (st : State) :
  table_wf st -> names_ok st -> range_order st order ->
  exists st',
    Clear_sweep order handles st = Returns st' /\
    device st' = device st /\
    (forall h, resources st' !! h
               = match resources st !! h with
                 | Some (pointer l) =>
                     match heap st !! l with
                     | Some c =>
                         if cell_continue handles c then Some (pointer l) else None
                     | None => None
                     end
                 | _ => None
                 end) /\
    (forall l, heap st' !! l
               = match heap st !! l with
                 | Some c =>
                     if decide (resources st !! cell_Handle c = Some (pointer l))
                     then if cell_continue handles c then Some c
                          else match cell_invalidate c with
                               | Returns c' => Some c'
                               | Panics _ => Some c
                               end
                     else Some c
                 | None => None
                 end).
Proof.
  intros Hwf Hnames Horder.
  destruct (Clear_sweep_spec handles order st Hwf Hnames (proj1 Horder))
    as (st' & Hsw & Hdev & _ & Hother & Hheap & Hcls).
  exists st'. split; [done|]. split; [done|]. split.
  - intros h. destruct (resources st !! h) as [rc|] eqn:Hh.
    + destruct (table_wf_lookup _ _ _ Hwf Hh) as (l & c & -> & Hl & Hc & _).
      rewrite Hl. pose proof (Hcls h l c (range_order_elem _ _ _ _ Horder Hh) Hh Hl)
        as Hcase.
      destruct (cell_continue handles c); by destruct Hcase.
    + rewrite Hother by by eapply range_order_not_elem. done.
  - intros l. destruct (heap st !! l) as [c|] eqn:Hl.
    + case_decide as Hh.
      * pose proof (Hcls _ l c (range_order_elem _ _ _ _ Horder Hh) Hh Hl) as Hcase.
        destruct (cell_continue handles c); [by destruct Hcase|].
        destruct Hcase as (_ & c' & Hinv & Hl'). by rewrite Hinv.
      * rewrite Hheap; [done|]. intros h _ Hh'.
        destruct (table_wf_lookup _ _ _ Hwf Hh') as (l0 & c0 & [= <-] & Hl0 & Hc0 & _).
        rewrite Hl in Hl0. injection Hl0 as <-. congruence.
    + rewrite Hheap; [done|]. intros h _ Hh'.
      destruct (table_wf_lookup _ _ _ Hwf Hh') as (l0 & c0 & [= <-] & Hl0 & _).
      congruence.
Qed.

(** X18.  The order in which [range] visits the table does not matter: two
    orders give the same state. *)
Theorem Clear_sweep_order_independent
    (handles : gset Z) (order1 order2 : list Z) (st : State) :
  table_wf st -> names_ok st ->
  range_order st order1 -> range_order st order2 ->
  Clear_sweep order1 handles st = Clear_sweep order2 handles st.
Proof.
  intros Hwf Hnames Ho1 Ho2.
  destruct (Clear_sweep_pointwise handles order1 st Hwf Hnames Ho1)
    as ([r1 h1 d1] & -> & Hd1 & Hr1 & Hh1).
  destruct (Clear_sweep_pointwise handles order2 st Hwf Hnames Ho2)
    as ([r2 h2 d2] & -> & Hd2 & Hr2 & Hh2).
  simpl in *. f_equal. f_equal; [| |congruence].
  - apply map_eq. intros h. by rewrite Hr1, Hr2.
  - apply map_eq. intros l. by rewrite Hh1, Hh2.
Qed.

Lemma Clear_sweep_nothing_to_do (handles : gset Z) (order : list Z) (st : State) :
  (forall h rc, resources st !! h = Some rc ->
     Clear_continue st handles rc = Returns true) ->
  Clear_sweep order handles st = Returns st.
Proof.
  intros Hall. induction order as [|k order IH]; simpl; [done|].
  destruct (resources st !! k) as [rc|] eqn:Hk; [|done].
  by rewrite (Hall k rc Hk).
Qed.

(** X19.  Sweeping again, with the same set of survivors and in any order,
    changes nothing. *)
Theorem Clear_sweep_idempotent
    (handles : gset Z) (order order' : list Z) (st st' : State) :
  table_wf st -> names_ok st -> range_order st order ->
  Clear_sweep order handles st = Returns st' ->
  Clear_sweep order' handles st' = Returns st'.
Proof.
  intros Hwf Hnames Horder Hsw.
  destruct (Clear_sweep_pointwise handles order st Hwf Hnames Horder)
    as (st0 & Hsw0 & _ & Hres & Hheap).
  rewrite Hsw in Hsw0. injection Hsw0 as <-.
  apply Clear_sweep_nothing_to_do. intros h rc Hh.
  rewrite Hres in Hh.
  destruct (resources st !! h) as [[| |l]|] eqn:Hst; try done.
  destruct (heap st !! l) as [c|] eqn:Hl; [|done].
  destruct (cell_continue handles c) eqn:Hcont; [|done].
  injection Hh as <-. unfold Clear_continue. rewrite Hheap, Hl, Hcont.
  case_decide; by rewrite Hcont.
Qed.

End SweepProperties.

Section CommandProperties.
Context `{D : Declarations} {C : Collaborators}.

(** X20.  [CreatePrimary] that returns an error returns no context and has
    registered none: the state is the one the command pipeline left. *)
Theorem CreatePrimary_error_registers_nothing
    (st st' : State) primaryObject inSensitive inPublic outsideInfo creationPCR
    auth sessions rc out e :
  CreatePrimary st primaryObject inSensitive inPublic outsideInfo creationPCR
    auth sessions = Returns (rc, out, Some e, st') ->
  rc = nilContext /\ out = None /\
  st' = (RunCommand_CreatePrimary st sessions primaryObject auth
           (match inSensitive with
            | Some x => x
            | None => SensitiveCreate_zero
            end) inPublic outsideInfo creationPCR).1.
Proof.
  unfold CreatePrimary. intros Hcp.
  destruct (RunCommand_CreatePrimary _ _ _ _ _ _ _ _) as [st1 [err|r]]; simpl.
  - by injection Hcp as <- <- _ <-.
  - case_decide; [by injection Hcp as <- <- _ <-|].
    destruct (outPublic r) as [pub|]; [|by injection Hcp as <- <- _ <-].
    destruct (compareName pub (name r)); simpl in Hcp;
      [|by injection Hcp as <- <- _ <-].
    destruct (addResourceContext _ _); done.
Qed.

Lemma CreatePrimary_unfold
    (st st1 : State) primaryObject inSensitive inPublic outsideInfo creationPCR
    auth sessions out pub :
  RunCommand_CreatePrimary st sessions primaryObject auth
    (match inSensitive with
     | Some x => x
     | None => SensitiveCreate_zero
     end) inPublic outsideInfo creationPCR = (st1, inr out) ->
  Handle_Type (objectHandle out) = HandleTypeTransient ->
  outPublic out = Some pub ->
  compareName pub (name out) = true ->
  CreatePrimary st primaryObject inSensitive inPublic outsideInfo creationPCR
    auth sessions
  = match addResourceContext
            (new st1 (objectCell (mkObjectContext (objectHandle out) pub (name out)))).1
            (new st1 (objectCell (mkObjectContext (objectHandle out) pub (name out)))).2
    with
    | Panics p => Panics p
    | Returns st2 =>
        Returns (pointer (fresh (dom (heap st1))), Some out, None, st2)
    end.
Proof.
  intros Hrun Hty Hpub Hcmp. unfold CreatePrimary. rewrite Hrun.
  rewrite decide_False by (intros Hne; by apply Hne).
  rewrite Hpub, Hcmp. simpl. by destruct (addResourceContext _ _).
Qed.

(** X21.  [CreatePrimary] when the TPM answers with a transient handle that is
    not tracked and a public area that matches the name: the new context
    holds the handle, the public area and the name of the answer, is
    tracked under the handle and is accepted as a parameter; the entries
    and contexts that existed are untouched. *)
Theorem CreatePrimary_registers_object
    (st st1 : State) primaryObject inSensitive inPublic outsideInfo creationPCR
    auth sessions out pub :
  RunCommand_CreatePrimary st sessions primaryObject auth
    (match inSensitive with
     | Some x => x
     | None => SensitiveCreate_zero
     end) inPublic outsideInfo creationPCR = (st1, inr out) ->
  Handle_Type (objectHandle out) = HandleTypeTransient ->
  outPublic out = Some pub ->
  compareName pub (name out) = true ->
  resources st1 !! objectHandle out = None ->
  exists l st2,
    CreatePrimary st primaryObject inSensitive inPublic outsideInfo creationPCR
      auth sessions = Returns (pointer l, Some out, None, st2) /\
    heap st1 !! l = None /\
    resources st2 = <[objectHandle out := pointer l]> (resources st1) /\
    heap st2
    = <[l := objectCell (mkObjectContext (objectHandle out) pub (name out))]>
        (heap st1) /\
    Handle (heap st2) (pointer l) = Returns (objectHandle out) /\
    Name (heap st2) (pointer l) = Returns (name out) /\
    checkResourceContextParam st2 (pointer l) = Returns None.
Proof.
  intros Hrun Hty Hpub Hcmp Hfree.
  assert (objectHandle out <> HandleNull) as Hnull.
  { apply not_permanent_not_null. rewrite Hty.
    pose proof handle_types_differ as Hd. tauto. }
  set (c := objectCell (mkObjectContext (objectHandle out) pub (name out))).
  pose proof (addResourceContext_new st1 c Hnull Hfree) as Hadd. simpl in Hadd.
  exists (fresh (dom (heap st1))). eexists. split.
  - rewrite (CreatePrimary_unfold st st1 _ _ _ _ _ _ _ out pub) by done.
    fold c. simpl. by rewrite Hadd.
  - simpl. split; [apply not_elem_of_dom, is_fresh|].
    split; [done|]. split; [done|].
    rewrite lookup_insert_eq. split; [done|]. split; [done|].
    unfold checkResourceContextParam. simpl. rewrite lookup_insert_eq. simpl.
    rewrite decide_False by done. rewrite lookup_insert_eq.
    by rewrite decide_True.
Qed.

(** X22.  [CreatePrimary] when the TPM answers with a transient handle that the
    table still holds a context for: the registration panics. *)
Theorem CreatePrimary_tracked_handle_panics
    (st st1 : State) primaryObject inSensitive inPublic outsideInfo creationPCR
    auth sessions out pub erc :
  RunCommand_CreatePrimary st sessions primaryObject auth
    (match inSensitive with
     | Some x => x
     | None => SensitiveCreate_zero
     end) inPublic outsideInfo creationPCR = (st1, inr out) ->
  Handle_Type (objectHandle out) = HandleTypeTransient ->
  outPublic out = Some pub ->
  compareName pub (name out) = true ->
  resources st1 !! objectHandle out = Some erc ->
  CreatePrimary st primaryObject inSensitive inPublic outsideInfo creationPCR
    auth sessions = Panics (panicAlreadyExists (objectHandle out)).
Proof.
  intros Hrun Hty Hpub Hcmp Htracked.
  assert (objectHandle out <> HandleNull) as Hnull.
  { apply not_permanent_not_null. rewrite Hty.
    pose proof handle_types_differ as Hd. tauto. }
  rewrite (CreatePrimary_unfold st st1 _ _ _ _ _ _ _ out pub) by done.
  unfold addResourceContext. simpl. rewrite lookup_insert_eq. simpl.
  rewrite decide_False by done. by rewrite Htracked.
Qed.

Lemma adoptNewAuth_not_required (ctx : cmdContext) (newAuth : list Z) sp :
  sessionParams ctx !! 0%nat = Some sp ->
  session sp = None \/
  (exists a, session sp = Some a /\ includeAuthValue a = false) ->
  adoptNewAuth ctx newAuth = Returns ctx.
Proof.
  intros Hsp Hcase. unfold adoptNewAuth. rewrite Hsp.
  destruct sp as [ac sess]. simpl in *.
  destruct Hcase as [-> | (a & -> & Hinc)]; [done|].
  unfold copyWithNewAuthIfRequired. rewrite Hinc.
  destruct ctx as [code params resp]. simpl in *.
  by rewrite list_insert_id.
Qed.

(** X23.  [HierarchyChangeAuth] and [Clear] with an authorization that is not a
    session ([authSession == nil]): the response is processed with the
    context of the round trip as it is. *)
Theorem response_processed_unchanged_without_auth_session :
  (forall st st1 authHandle newAuth auth sessions s1 s2 ctx sp,
     validateAndAppendSessionParam st [] (HandleWithAuth authHandle auth) = inr s1 ->
     validateAndAppendSessionParam st s1 (Sessions sessions) = inr s2 ->
     runCommandWithoutProcessingResponse st CommandHierarchyChangeAuth s2
       [paramHandle authHandle; Separator; paramBytes newAuth] = (st1, inr ctx) ->
     sessionParams ctx !! 0%nat = Some sp ->
     session sp = None ->
     HierarchyChangeAuth st authHandle newAuth auth sessions
     = Returns ((processResponse st1 ctx).2, (processResponse st1 ctx).1)) /\
  (forall order st st1 st2 authHandle auth sessions s1 s2 ctx sp,
     validateAndAppendSessionParam st [] (HandleWithAuth authHandle auth) = inr s1 ->
     validateAndAppendSessionParam st s1 (Sessions sessions) = inr s2 ->
     runCommandWithoutProcessingResponse st CommandClear s2 [paramHandle authHandle]
     = (st1, inr ctx) ->
     Clear_sweep order (Clear_enumerate st1).2 (Clear_enumerate st1).1 = Returns st2 ->
     sessionParams ctx !! 0%nat = Some sp ->
     session sp = None ->
     Clear order st authHandle auth sessions
     = Returns ((processResponse st2 ctx).2, (processResponse st2 ctx).1)).
Proof.
  split.
  - intros st st1 authHandle newAuth auth sessions s1 s2 ctx sp
      Hv1 Hv2 Hrun Hsp Hnone.
    unfold HierarchyChangeAuth. rewrite Hv1, Hv2, Hrun.
    rewrite (adoptNewAuth_not_required ctx newAuth sp) by auto.
    by destruct (processResponse st1 ctx).
  - intros order st st1 st2 authHandle auth sessions s1 s2 ctx sp
      Hv1 Hv2 Hrun Hsw Hsp Hnone.
    rewrite (Clear_unfold order st st1 authHandle auth sessions s1 s2 (inr ctx))
      by done.
    rewrite Hsw. by rewrite (adoptNewAuth_not_required ctx [] sp) by auto.
Qed.

End CommandProperties.

(** ** The embedding at work *)

Import Scenario.
#[local] Existing Instance TPM20.

Ltac compute_it := vm_compute; first [reflexivity | exact I | discriminate | congruence].
Ltac decide_it := apply (bool_decide_unpack _); vm_compute; exact I.

(** C4.  Evicting a tracked object context whose Name is an algorithm
    identifier and a digest: the context leaves the table, its [Handle()] is
    the null handle and it is refused as a parameter of a command, but its
    [Name()] is not the encoding of the null handle: [invalidate] wrote the
    four bytes over the head of the old Name and the other thirty bytes of
    the digest are still there. *)
Theorem invalidate_keeps_tail_of_Name :
  exists st',
    evictResourceContext (D := TPM20) oneObject (pointer 1) = Returns st' /\
    resources st' !! 0x80000000 = None /\
    Handle (heap st') (pointer 1) = Returns HandleNull /\
    checkResourceContextParam st' (pointer 1)
    = Returns (Some (errorString "resource has been closed"%string)) /\
    be32 HandleNull = [0x40; 0; 0; 7] /\
    Name (heap st') (pointer 1) = Returns ([0x40; 0; 0; 7] ++ drop 4 name34) /\
    Name (heap st') (pointer 1) <> Returns (be32 HandleNull).
Proof.
  eexists. split; [vm_compute; reflexivity|].
  repeat split; try compute_it.
Qed.

(** C3.  [Clear] when the transport is down: the round trip fails and
    leaves the state as it was, [Clear] returns the transport error, and
    yet the sweep has run: both objects and the owner NV index have left
    the table and their contexts are invalidated. *)
Theorem Clear_sweeps_after_transport_failure :
  exists st',
    runCommandWithoutProcessingResponse (Collaborators := transport_down)
      populated CommandClear [mkSessionParam (permanentContext HandleLockout) None]
      [paramHandle HandleLockout] = (populated, inl transportError) /\
    Clear (C := transport_down) populated_order populated HandleLockout authNil []
    = Returns (Some transportError, st') /\
    st' <> populated /\
    resources st' = {[ 0x0141ffff := pointer 4; 0x03000000 := pointer 5 ]} /\
    Handle (heap st') (pointer 1) = Returns HandleNull /\
    Handle (heap st') (pointer 2) = Returns HandleNull /\
    Handle (heap st') (pointer 3) = Returns HandleNull.
Proof.
  eexists. split; [reflexivity|]. split; [vm_compute; reflexivity|].
  repeat split; try compute_it.
Qed.


Lemma Clear_failed_enumeration_evicts_all_witness :
  table_wf populated /\ names_ok populated /\
  range_order populated populated_order /\
  exists st',
    Clear_sweep populated_order (Clear_enumerate (C := after_clear) populated).2
      (Clear_enumerate (C := after_clear) populated).1 = Returns st' /\
    resources st' !! 0x80000000 = None /\
    Handle (heap st') (pointer 1) = Returns HandleNull.
Proof.
  assert (table_wf populated) as Hwf by decide_it.
  assert (names_ok populated) as Hnames by decide_it.
  assert (range_order populated populated_order) as Horder by decide_it.
  repeat (split; [assumption|]).
  destruct (Clear_failed_enumeration_evicts_all (C := after_clear)
              populated populated_order Hwf Hnames Horder)
    as (st' & Hsw & Htransient & _).
  exists st'. split; [assumption|].
  destruct Htransient as [_ Hev].
  - eexists. vm_compute. reflexivity.
  - intros h Hin. change (h ∈ (list_to_set [0x81000001] : gset Z)) in Hin.
    apply elem_of_list_to_set in Hin. apply list_elem_of_singleton in Hin.
    subst h. reflexivity.
  - destruct (Hev 0x80000000 1%positive
                (mkObjectContext (D := TPM20) 0x80000000 tt name34))
      as (Hnone & r' & _ & _ & Hnull); [reflexivity..|].
    split; assumption.
Defined.

Lemma WrapHandle_unhandled_type_panics_witness :
  WrapHandle (C := all_there) empty_state 0x04000000 = Panics panicNilDereference.
Proof.
  apply (WrapHandle_unhandled_type_panics (C := all_there) empty_state 0x04000000);
    compute_it.
Defined.

Lemma WrapHandle_resource_unavailable_witness :
  WrapHandle (C := nothing_there) empty_state 0x0181ffff
  = Returns (nilContext, Some (ResourceUnavailableError 0x0181ffff), empty_state).
Proof.
  destruct (WrapHandle_resource_unavailable (C := nothing_there) empty_state
              0x0181ffff tt (TPMHandleError 0x169 0x0b 1))
    as (e' & Hw & _ & Hhandle & _).
  - reflexivity.
  - left. split; reflexivity.
  - rewrite Hw. rewrite (Hhandle 0x169 1 eq_refl). reflexivity.
Defined.

Lemma WrapHandle_by_handle_type_witness :
  (exists st',
     WrapHandle (C := all_there) populated 0x01800001
     = Returns (pointer 6, None, st') /\
     resources st' !! 0x01800001 = Some (pointer 6) /\
     heap st' !! 6%positive
     = Some (nvIndexCell (mkNVIndexContext 0x01800001
                            (mkNVPublic 0x01800001 11 0x00040004 8) name34))) /\
  WrapHandle (C := all_there) populated 0x00000003
  = Returns (nilContext, Some (errorString "cannot wrap a PCR handle"%string),
             populated) /\
  WrapHandle (C := all_there) populated HandleOwner
  = Returns (permanentContext HandleOwner, None, populated).
Proof.
  split; [|split].
  - destruct (WrapHandle_by_handle_type (C := all_there) populated 0x01800001)
      as (_ & _ & Hnv & _); [reflexivity|].
    specialize (Hnv eq_refl tt (mkNVPublic 0x01800001 11 0x00040004 8) name34
                  eq_refl).
    eexists. split; [exact Hnv|]. split; vm_compute; reflexivity.
  - destruct (WrapHandle_by_handle_type (C := all_there) populated 0x00000003)
      as (Hpcr & _); [reflexivity|].
    exact (Hpcr eq_refl).
  - destruct (WrapHandle_by_handle_type (C := all_there) populated HandleOwner)
      as (_ & _ & _ & _ & Hperm); [reflexivity|].
    exact (Hperm eq_refl).
Defined.

(** Wrapping an NV index that exists, twice: the second call returns the
    context of the first. *)
Lemma WrapHandle_idempotent_witness :
  exists rc st',
    WrapHandle (C := all_there) empty_state 0x0181ffff = Returns (rc, None, st') /\
    WrapHandle (C := all_there) st' 0x0181ffff = Returns (rc, None, st') /\
    rc = pointer 1.
Proof.
  destruct (WrapHandle_idempotent (C := all_there) empty_state 0x0181ffff)
    as [_ Hagain].
  eexists _, _. split; [vm_compute; reflexivity|].
  split; [|reflexivity].
  eapply Hagain. vm_compute. reflexivity.
Defined.

(** [HierarchyChangeAuth] with an HMAC session whose key includes the auth
    value, against a TPM that keys the response with the new secret: the
    response verifies.  [Clear] likewise, against a TPM that keys the
    response with the empty secret. *)
Lemma response_verified_with_post_change_secret_witness :
  HierarchyChangeAuth (C := answers_with [7; 8; 9]) with_session HandleOwner
    [7; 8; 9] (authWithSession lockoutSession) []
  = Returns (None, with_session) /\
  Clear (C := answers_with []) [0x02000000] with_session HandleLockout
    (authWithSession lockoutSession) []
  = Returns (None, with_session).
Proof.
  destruct (response_verified_with_post_change_secret (D := TPM20)
              (C := answers_with [7; 8; 9])) as [Hchange _].
  destruct (response_verified_with_post_change_secret (D := TPM20)
              (C := answers_with [])) as [_ Hclear].
  split.
  - destruct (Hchange with_session with_session HandleOwner [7; 8; 9]
                (authWithSession lockoutSession) []
                [mkSessionParam (permanentContext HandleOwner) (Some lockoutSession)]
                [mkSessionParam (permanentContext HandleOwner) (Some lockoutSession)]
                (mkCmdContext (D := TPM20) CommandHierarchyChangeAuth
                   [mkSessionParam (permanentContext HandleOwner) (Some lockoutSession)] tt)
                (mkSessionParam (permanentContext HandleOwner) (Some lockoutSession))
                lockoutSession eq_refl eq_refl eq_refl eq_refl eq_refl eq_refl)
      as [Hrun _].
    rewrite Hrun. vm_compute. reflexivity.
  - destruct (Hclear [0x02000000] with_session with_session with_session
                HandleLockout (authWithSession lockoutSession) []
                [mkSessionParam (permanentContext HandleLockout) (Some lockoutSession)]
                [mkSessionParam (permanentContext HandleLockout) (Some lockoutSession)]
                (mkCmdContext (D := TPM20) CommandClear
                   [mkSessionParam (permanentContext HandleLockout) (Some lockoutSession)] tt)
                (mkSessionParam (permanentContext HandleLockout) (Some lockoutSession))
                lockoutSession eq_refl eq_refl eq_refl)
      as [Hrun _]; [vm_compute; reflexivity | reflexivity..|].
    rewrite Hrun. vm_compute. reflexivity.
Defined.

Lemma permanentContext_untracked_and_constant_witness :
  addResourceContext populated (permanentContext HandleOwner) = Returns populated /\
  Name (heap populated) (permanentContext HandleOwner) = Returns [0x40; 0; 0; 1].
Proof.
  destruct (permanentContext_untracked_and_constant (D := TPM20) (C := all_there))
    as (Hadd & _ & _ & _ & _ & _ & _ & _ & _ & Hconst).
  split; [apply Hadd|].
  destruct (Hconst (heap populated) HandleOwner) as [_ Hname]. exact Hname.
Defined.

(** *** The further properties at work *)

Ltac uint32_it := vm_compute; split; congruence.


Lemma setAttr_clearAttr_bits_witness :
  is_uint32 (nvAttrs (nv_public writtenIndex)) /\ is_uint32 AttrNVWritten /\
  Z.land (nvAttrs (nv_public (nvIndexContext_setAttr nameOf writtenIndex
                                AttrNVWritten))) AttrNVWritten = AttrNVWritten.
Proof.
  assert (is_uint32 (nvAttrs (nv_public writtenIndex))) as H1 by uint32_it.
  assert (is_uint32 AttrNVWritten) as H2 by uint32_it.
  repeat (split; [assumption|]).
  edestruct (setAttr_clearAttr_bits nameOf writtenIndex AttrNVWritten H1 H2)
    as [(_ & Hset & _) _].
  exact Hset.
Defined.

Lemma setAttr_clearAttr_round_trip_witness :
  is_uint32 (nvAttrs (nv_public writtenIndex)) /\ is_uint32 AttrNVWritten /\
  nvIndexContext_clearAttr nameOf
    (nvIndexContext_setAttr nameOf writtenIndex AttrNVWritten) AttrNVWritten
  = writtenIndex.
Proof.
  assert (is_uint32 (nvAttrs (nv_public writtenIndex))) as H1 by uint32_it.
  assert (is_uint32 AttrNVWritten) as H2 by uint32_it.
  repeat (split; [assumption|]).
  edestruct (setAttr_clearAttr_round_trip nameOf writtenIndex AttrNVWritten H1 H2
              eq_refl) as [Hround _].
  apply Hround. reflexivity.
Defined.

Lemma checkResourceContextParam_pointer_witness :
  heap populated !! 1%positive = Some transientKey /\
  checkResourceContextParam populated (pointer 1) = Returns None.
Proof.
  split; [reflexivity|].
  edestruct (checkResourceContextParam_pointer (D := TPM20) populated 1 transientKey
              eq_refl) as [[_ Haccept] _].
  apply Haccept. split; compute_it.
Defined.

Lemma addResourceContext_only_adds_witness :
  exists st',
    addResourceContext unregistered (pointer 1) = Returns st' /\
    resources st' !! 0x80000000 = Some (pointer 1) /\
    heap st' = heap unregistered.
Proof.
  eexists. split; [vm_compute; reflexivity|].
  pose proof (fun st' => addResourceContext_only_adds (D := TPM20) unregistered st'
                          (pointer 1)) as Hthm.
  edestruct Hthm as (_ & Hheap & _ & Hcase).
  - vm_compute. reflexivity.
  - split; [|exact Hheap]. vm_compute. reflexivity.
Defined.


Lemma ForgetResource_error_changes_nothing_witness :
  exists e st',
    ForgetResource (D := TPM20) populated nilContext = Returns (Some e, st') /\
    st' = populated.
Proof.
  eexists. eexists. split; [vm_compute; reflexivity|].
  pose proof (fun st' => ForgetResource_error_changes_nothing (D := TPM20) populated
                          st' nilContext (errorString "nil value")) as Hthm.
  apply Hthm. vm_compute. reflexivity.
Defined.

Lemma ForgetResource_forgets_witness :
  table_wf populated /\
  exists st',
    ForgetResource populated (pointer 1) = Returns (None, st') /\
    resources st' !! 0x80000000 = None.
Proof.
  assert (table_wf populated) as Hwf by decide_it.
  split; [assumption|].
  edestruct (ForgetResource_forgets (D := TPM20) populated 0x80000000 1 transientKey)
    as (c' & _ & Hforget & _); try compute_it; try assumption.
  - simpl. lia.
  - eexists. split; [exact Hforget|]. apply lookup_delete_eq.
Defined.

Lemma ForgetResource_refuses_session_witness :
  table_wf populated /\
  ForgetResource populated (pointer 5)
  = Returns (Some (errorString forget_session_message), populated).
Proof.
  assert (table_wf populated) as Hwf by decide_it.
  split; [assumption|].
  edestruct (ForgetResource_refuses_session (D := TPM20) populated 0x03000000 5
              policySession Hwf eq_refl eq_refl) as [Hrefused _].
  - right. reflexivity.
  - exact Hrefused.
Defined.

Lemma ForgetResource_twice_witness :
  exists st',
    ForgetResource populated (pointer 1) = Returns (None, st') /\
    ForgetResource st' (pointer 1)
    = Returns (Some (errorString "resource has been closed"%string), st').
Proof.
  eexists. split; [vm_compute; reflexivity|].
  pose proof (fun st' => ForgetResource_twice (D := TPM20) populated st' 1
                          0x80000000) as Hthm.
  edestruct Hthm as (_ & Hagain & _).
  - reflexivity.
  - compute_it.
  - vm_compute. reflexivity.
  - exact Hagain.
Defined.

Lemma WrapHandle_error_changes_nothing_witness :
  exists e st',
    WrapHandle (C := nothing_there) empty_state 0x0181ffff
    = Returns (nilContext, Some e, st') /\
    resources st' = resources empty_state /\ heap st' = heap empty_state.
Proof.
  eexists. eexists. split; [vm_compute; reflexivity|].
  pose proof (fun st' => WrapHandle_error_changes_nothing (C := nothing_there)
                          empty_state st' 0x0181ffff nilContext
                          (ResourceUnavailableError 0x0181ffff)) as Hthm.
  edestruct Hthm as (_ & Hres & Hheap).
  - vm_compute. reflexivity.
  - split; assumption.
Defined.

Lemma WrapHandle_keeps_what_exists_witness :
  exists rc st',
    WrapHandle (C := all_there) populated 0x01800001 = Returns (rc, None, st') /\
    resources st' !! 0x80000000 = Some (pointer 1) /\
    heap st' !! 1%positive = Some transientKey.
Proof.
  eexists. eexists. split; [vm_compute; reflexivity|].
  pose proof (fun st' => WrapHandle_keeps_what_exists (C := all_there) populated
                          st' 0x01800001 (pointer 6) None) as Hthm.
  edestruct Hthm as [Hres Hheap].
  - vm_compute. reflexivity.
  - split; [apply Hres | apply Hheap]; reflexivity.
Defined.

Lemma WrapHandle_returns_usable_context_witness :
  table_wf populated /\
  exists rc st',
    WrapHandle (C := all_there) populated 0x01800001 = Returns (rc, None, st') /\
    Handle (heap st') rc = Returns 0x01800001 /\
    checkResourceContextParam st' rc = Returns None.
Proof.
  assert (table_wf populated) as Hwf by decide_it.
  split; [assumption|].
  eexists. eexists. split; [vm_compute; reflexivity|].
  pose proof (fun st' => WrapHandle_returns_usable_context (C := all_there)
                          populated st' 0x01800001 (pointer 6) Hwf) as Hthm.
  edestruct Hthm as (Hhandle & Hcheck & _).
  - vm_compute. reflexivity.
  - split; assumption.
Defined.

Lemma ForgetResource_then_WrapHandle_new_instance_witness :
  table_wf populated /\
  exists st1 l' st2,
    ForgetResource populated (pointer 1) = Returns (None, st1) /\
    WrapHandle (C := all_there) st1 0x80000000 = Returns (pointer l', None, st2) /\
    l' <> 1%positive /\
    Handle (heap st2) (pointer 1) = Returns HandleNull.
Proof.
  assert (table_wf populated) as Hwf by decide_it.
  split; [assumption|].
  edestruct (ForgetResource_then_WrapHandle_new_instance (C := all_there)
              populated 0x80000000 1 transientKey Hwf eq_refl eq_refl)
    as (st1 & l' & st2 & Hforget & Hwrap & Hne & _ & _ & Hclosed).
  - simpl. lia.
  - right. split; [left; reflexivity|].
    exists tt, tt, name34, name34. reflexivity.
  - exists st1, l', st2. repeat split; assumption.
Defined.

Lemma reachable_table_invariant_witness :
  exists st,
    rtc (step (C := all_there)) empty_state st /\
    resources st !! 0x0181ffff = Some (pointer 1) /\
    forall h rc, resources st !! h = Some rc ->
      exists l c, rc = pointer l /\ heap st !! l = Some c /\
                  cell_Handle c = h /\ h <> HandleNull.
Proof.
  eexists.
  assert (WrapHandle (C := all_there) empty_state 0x0181ffff
          = Returns (pointer 1, None,
                     mkState {[ 0x0181ffff := pointer 1 ]}
                       {[ 1%positive :=
                            nvIndexCell (mkNVIndexContext 0x0181ffff
                              (mkNVPublic 0x0181ffff 11 0x00040004 8) name34) ]}
                       tt)) as Hwrap by (vm_compute; reflexivity).
  assert (rtc (step (C := all_there)) empty_state
            (mkState {[ 0x0181ffff := pointer 1 ]}
               {[ 1%positive :=
                    nvIndexCell (mkNVIndexContext 0x0181ffff
                      (mkNVPublic 0x0181ffff 11 0x00040004 8) name34) ]}
               tt)) as Hreach.
  { apply rtc_once. eapply (step_WrapHandle (C := all_there)). exact Hwrap. }
  split; [exact Hreach|]. split; [reflexivity|].
  exact (proj1 (reachable_table_invariant (C := all_there) ∅ tt _ Hreach)).
Defined.

Lemma evict_session_keeps_key_witness :
  table_wf populated /\
  exists st',
    evictResourceContext populated (pointer 5) = Returns st' /\
    Name (heap st') (pointer 5) = Returns [0x40; 0; 0; 7].
Proof.
  assert (table_wf populated) as Hwf by decide_it.
  split; [assumption|].
  edestruct (evict_session_keeps_key (D := TPM20) populated 0x03000000 5
              policySessionContext Hwf eq_refl eq_refl)
    as (st' & r' & Hevict & _ & _ & _ & Hname & _).
  exists st'. split; assumption.
Defined.

Lemma Clear_sweep_frame_witness :
  exists st',
    Clear_sweep (D := TPM20) populated_order {[ 0x81000001 ]} populated
    = Returns st' /\
    device st' = device populated /\
    resources st' !! 0x80000000 = None.
Proof.
  eexists. split; [vm_compute; reflexivity|].
  pose proof (fun st' => Clear_sweep_frame (D := TPM20) {[ 0x81000001 ]}
                          populated_order populated st') as Hthm.
  edestruct Hthm as (Hdev & _ & _).
  - vm_compute. reflexivity.
  - split; [exact Hdev | reflexivity].
Defined.

Lemma Clear_sweep_order_independent_witness :
  table_wf populated /\ names_ok populated /\
  range_order populated populated_order /\
  range_order populated populated_order' /\
  Clear_sweep populated_order {[ 0x81000001 ]} populated
  = Clear_sweep populated_order' {[ 0x81000001 ]} populated.
Proof.
  assert (table_wf populated) as Hwf by decide_it.
  assert (names_ok populated) as Hnames by decide_it.
  assert (range_order populated populated_order) as Ho1 by decide_it.
  assert (range_order populated populated_order') as Ho2 by decide_it.
  repeat (split; [assumption|]).
  exact (Clear_sweep_order_independent (D := TPM20) {[ 0x81000001 ]}
           populated_order populated_order' populated Hwf Hnames Ho1 Ho2).
Defined.

Lemma Clear_sweep_idempotent_witness :
  table_wf populated /\ names_ok populated /\
  range_order populated populated_order /\
  exists st',
    Clear_sweep populated_order {[ 0x81000001 ]} populated = Returns st' /\
    Clear_sweep populated_order' {[ 0x81000001 ]} st' = Returns st'.
Proof.
  assert (table_wf populated) as Hwf by decide_it.
  assert (names_ok populated) as Hnames by decide_it.
  assert (range_order populated populated_order) as Ho1 by decide_it.
  repeat (split; [assumption|]).
  eexists. split; [vm_compute; reflexivity|].
  pose proof (fun st' => Clear_sweep_idempotent (D := TPM20) {[ 0x81000001 ]}
                          populated_order populated_order' populated st'
                          Hwf Hnames Ho1) as Hthm.
  apply Hthm. vm_compute. reflexivity.
Defined.

Lemma CreatePrimary_error_registers_nothing_witness :
  exists e st',
    CreatePrimary (C := creates 0x01000000) populated HandleOwner None (Some tt) []
      tt authNil [] = Returns (nilContext, None, Some e, st') /\
    st' = populated.
Proof.
  eexists. eexists. split; [vm_compute; reflexivity|].
  pose proof (fun st' => CreatePrimary_error_registers_nothing
                          (C := creates 0x01000000)
                          populated st' HandleOwner None (Some tt) [] tt authNil []
                          nilContext None
                          (InvalidResponseError CommandCreatePrimary
                             "handle returned from TPM is the wrong type"))
    as Hthm.
  edestruct Hthm as (_ & _ & Hstate).
  - vm_compute. reflexivity.
  - exact Hstate.
Defined.

Lemma CreatePrimary_registers_object_witness :
  exists l st2,
    CreatePrimary (C := creates 0x80000002) populated HandleOwner None (Some tt) []
      tt authNil [] = Returns (pointer l, Some (primaryResponse 0x80000002), None, st2) /\
    Handle (heap st2) (pointer l) = Returns 0x80000002 /\
    Name (heap st2) (pointer l) = Returns name34.
Proof.
  edestruct (CreatePrimary_registers_object (C := creates 0x80000002) populated
              populated HandleOwner None (Some tt) [] tt authNil []
              (primaryResponse 0x80000002) tt
              eq_refl eq_refl eq_refl eq_refl eq_refl)
    as (l & st2 & Hcreate & _ & _ & _ & Hhandle & Hname & _).
  exists l, st2. repeat split; assumption.
Defined.

Lemma CreatePrimary_tracked_handle_panics_witness :
  CreatePrimary (C := creates 0x80000000) populated HandleOwner None (Some tt) []
    tt authNil [] = Panics (panicAlreadyExists 0x80000000).
Proof.
  exact (CreatePrimary_tracked_handle_panics (C := creates 0x80000000) populated
           populated HandleOwner None (Some tt) [] tt authNil []
           (primaryResponse 0x80000000) tt (pointer 1)
           eq_refl eq_refl eq_refl eq_refl eq_refl).
Defined.

Lemma response_processed_unchanged_without_auth_session_witness :
  HierarchyChangeAuth (C := answers_with []) with_session HandleOwner [7; 8; 9]
    (authValue [1; 2; 3]) []
  = Returns (None, with_session).
Proof.
  destruct (response_processed_unchanged_without_auth_session (D := TPM20)
              (C := answers_with [])) as [Hchange _].
  rewrite (Hchange with_session with_session HandleOwner [7; 8; 9]
             (authValue [1; 2; 3]) []
             [mkSessionParam (permanentContext HandleOwner) None]
             [mkSessionParam (permanentContext HandleOwner) None]
             (mkCmdContext (D := TPM20) CommandHierarchyChangeAuth
                [mkSessionParam (permanentContext HandleOwner) None] tt)
             (mkSessionParam (permanentContext HandleOwner) None)
             eq_refl eq_refl eq_refl eq_refl eq_refl).
  vm_compute. reflexivity.
Defined.
